(** * Steam Connect Redirector: the two request handlers and their properties

    The repository holds two variants of one Cloudflare Worker:
    - the hardened handler (the script printed in README.md: [fetch],
      [isValidIPv4], [isPrivateOrReservedIP], [ipInCidr], [ipv4ToInt]);
    - the minimal handler (worker.js).

    Both are embedded below as Rocq functions.  JavaScript strings are
    modelled by [string] (a character stands for one code unit in the
    Latin-1 range), JavaScript numbers by [number] (the integer-valued
    doubles, the two infinities and NaN), the two regular expressions of the
    sources by a small regular-expression type with a derivative matcher, and
    the platform's URL class by a parameter of the handlers. *)

From Stdlib Require Import ZArith List Bool Ascii String Lia.
From Stdlib Require Import Decimal DecimalString DecimalFacts DecimalPos DecimalN DecimalZ.
Import ListNotations.

Local Open Scope list_scope.
Local Open Scope string_scope.
Local Open Scope Z_scope.

(* ================================================================== *)
(** * Strings *)
(* ================================================================== *)

Module Str.

(** [s.split(sep)] for a one-character separator.  The result is never
    empty: splitting the empty string yields one empty segment. *)
Fixpoint split (sep : ascii) (s : string) : list string :=
  match s with
  | EmptyString => [EmptyString]
  | String c s' =>
      if Ascii.eqb c sep then EmptyString :: split sep s'
      else match split sep s' with
           | [] => [String c EmptyString]
           | p :: ps => String c p :: ps
           end
  end.

(** [s.startsWith(c)] for a one-character argument. *)
Definition startsWith (s : string) (c : ascii) : bool :=
  match s with
  | EmptyString => false
  | String a _ => Ascii.eqb a c
  end.

(** [s.length] *)
Definition length (s : string) : Z := Z.of_nat (String.length s).

Fixpoint forallb (p : ascii -> bool) (s : string) : bool :=
  match s with
  | EmptyString => true
  | String c s' => p c && forallb p s'
  end.

(** Joining segments back with the separator: the inverse of [split]. *)
Fixpoint join (sep : ascii) (l : list string) : string :=
  match l with
  | [] => EmptyString
  | [p] => p
  | p :: ps => p ++ String sep (join sep ps)
  end.

End Str.

(* ================================================================== *)
(** * Regular expressions *)
(* ================================================================== *)

(** The two patterns of the sources, [/^\d+$/] and the dotted-quad pattern
    of worker.js, use only character classes, concatenation, alternation,
    [?] and [+], anchored at both ends.  For such patterns [re.test(s)] is
    membership of the whole of [s] in the language of the pattern, which the
    derivative matcher below decides. *)
Module Regex.

Inductive regex : Type :=
| Void : regex
| Eps : regex
| Range (lo hi : ascii) : regex
| Seq (r1 r2 : regex) : regex
| Alt (r1 r2 : regex) : regex
| Star (r : regex) : regex.

Definition Chr (c : ascii) : regex := Range c c.
Definition Opt (r : regex) : regex := Alt r Eps.
Definition Plus (r : regex) : regex := Seq r (Star r).

Definition in_range (lo hi c : ascii) : bool :=
  (N.leb (N_of_ascii lo) (N_of_ascii c) && N.leb (N_of_ascii c) (N_of_ascii hi))%bool.

Fixpoint nullable (r : regex) : bool :=
  match r with
  | Void => false
  | Eps => true
  | Range _ _ => false
  | Seq r1 r2 => nullable r1 && nullable r2
  | Alt r1 r2 => nullable r1 || nullable r2
  | Star _ => true
  end.

Fixpoint deriv (c : ascii) (r : regex) : regex :=
  match r with
  | Void => Void
  | Eps => Void
  | Range lo hi => if in_range lo hi c then Eps else Void
  | Seq r1 r2 =>
      if nullable r1 then Alt (Seq (deriv c r1) r2) (deriv c r2)
      else Seq (deriv c r1) r2
  | Alt r1 r2 => Alt (deriv c r1) (deriv c r2)
  | Star r1 => Seq (deriv c r1) (Star r1)
  end.

(** [/^r$/.test(s)] *)
Fixpoint test (r : regex) (s : string) : bool :=
  match s with
  | EmptyString => nullable r
  | String c s' => test (deriv c r) s'
  end.

(** The language of a pattern, as a relation. *)
Inductive Matches : regex -> string -> Prop :=
| MEps : Matches Eps EmptyString
| MRange lo hi c : in_range lo hi c = true -> Matches (Range lo hi) (String c EmptyString)
| MSeq r1 r2 s1 s2 : Matches r1 s1 -> Matches r2 s2 -> Matches (Seq r1 r2) (s1 ++ s2)
| MAltL r1 r2 s : Matches r1 s -> Matches (Alt r1 r2) s
| MAltR r1 r2 s : Matches r2 s -> Matches (Alt r1 r2) s
| MStar0 r : Matches (Star r) EmptyString
| MStarS r c s1 s2 :
    Matches r (String c s1) -> Matches (Star r) s2 -> Matches (Star r) (String c s1 ++ s2).

(** [\d] *)
Definition digit : regex := Range "0" "9".

(** [/^\d+$/] *)
Definition digits : regex := Plus digit.

End Regex.

(** [c] is one of the decimal digits [0-9]. *)
Definition is_digit (c : ascii) : bool := Regex.in_range "0" "9" c.

(** The value of one decimal digit. *)
Definition digit_value (c : ascii) : Z := Z.of_N (N_of_ascii c) - 48.

(** The mathematical value of a sequence of decimal digits, most
    significant first; [acc] is the value of the digits already read. *)
Fixpoint decimal_acc (acc : Z) (s : string) : Z :=
  match s with
  | EmptyString => acc
  | String c s' => decimal_acc (10 * acc + digit_value c) s'
  end.

Definition decimal_value (s : string) : Z := decimal_acc 0 s.

(** The digits without their leading zeros; the canonical decimal text of the
    value of a digit string is that, or [0] when nothing is left. *)
Fixpoint strip_zeros (s : string) : string :=
  match s with
  | String "0" r => strip_zeros r
  | _ => s
  end.

Definition canonical_decimal (s : string) : string :=
  match strip_zeros s with
  | EmptyString => "0"
  | t => t
  end.

(* ================================================================== *)
(** * JavaScript numbers *)
(* ================================================================== *)

(** The Number values this program computes with: integer-valued doubles,
    the infinities and NaN.  Negative zero is identified with zero (the
    program only compares, adds and prints its numbers, and those operations
    do not tell the two zeros apart). *)
Inductive number : Type :=
| Int (z : Z)
| PInf
| NInf
| NaN.

Module Num.

(** Rounding of a non-negative integer to the nearest integer with a 53-bit
    significand, ties to even. *)
Definition round53 (n : Z) : Z :=
  let k := Z.log2 n in
  if k <? 53 then n
  else
    let e := k - 52 in
    let q := Z.shiftr n e in
    let r := n - Z.shiftl q e in
    let half := Z.shiftl 1 (e - 1) in
    let q' := if r <? half then q
              else if half <? r then q + 1
              else if Z.even q then q else q + 1 in
    Z.shiftl q' e.

(** The Number value for a mathematical integer: rounded to the nearest
    double, overflowing to an infinity. *)
Definition of_Z (z : Z) : number :=
  let m := round53 (Z.abs z) in
  if 2 ^ 1024 <=? m then (if z <? 0 then NInf else PInf)
  else Int (Z.sgn z * m).

(** [a + b] *)
Definition add (a b : number) : number :=
  match a, b with
  | NaN, _ | _, NaN => NaN
  | PInf, NInf | NInf, PInf => NaN
  | PInf, _ | _, PInf => PInf
  | NInf, _ | _, NInf => NInf
  | Int x, Int y => of_Z (x + y)
  end.

(** [- a] *)
Definition neg (a : number) : number :=
  match a with
  | Int x => Int (- x)
  | PInf => NInf
  | NInf => PInf
  | NaN => NaN
  end.

(** [a - b] *)
Definition sub (a b : number) : number := add a (neg b).

(** [a ** b], for the exponents the program uses: a non-negative integer
    exponent.  With a negative exponent the result is a fraction, which
    [number] does not represent, and the NaN given here is not what
    JavaScript gives; [ipInCidr] only raises 2 to [32 - p] for the prefix
    lengths [p] of its table, all at most 32, and every result below on
    [ipInCidr] has the prefix length at most 32. *)
Definition pow (a b : number) : number :=
  match a, b with
  | Int x, Int y => if 0 <=? y then of_Z (x ^ y) else NaN
  | _, _ => NaN
  end.

(** [a < b] *)
Definition lt (a b : number) : bool :=
  match a, b with
  | NaN, _ | _, NaN => false
  | Int x, Int y => x <? y
  | NInf, NInf => false
  | NInf, _ => true
  | _, NInf => false
  | PInf, _ => false
  | _, PInf => true
  end.

(** [a > b] *)
Definition gt (a b : number) : bool := lt b a.

(** [a === b] *)
Definition eqb (a b : number) : bool :=
  match a, b with
  | Int x, Int y => x =? y
  | PInf, PInf => true
  | NInf, NInf => true
  | _, _ => false
  end.

(** [isNaN(a)] *)
Definition isNaN (a : number) : bool :=
  match a with NaN => true | _ => false end.

(** ToUint32: the integer modulo 2^32; NaN and the infinities give 0. *)
Definition ToUint32 (a : number) : Z :=
  match a with
  | Int x => x mod 2 ^ 32
  | _ => 0
  end.

(** ToInt32: the same 32 bits read as a signed integer. *)
Definition ToInt32 (a : number) : Z :=
  let u := ToUint32 a in
  if u <? 2 ^ 31 then u else u - 2 ^ 32.

(** An integer brought back into the signed 32-bit range. *)
Definition wrap32 (z : Z) : Z := ToInt32 (Int z).

(** [a << b] *)
Definition shl (a b : number) : number :=
  Int (wrap32 (Z.shiftl (ToInt32 a) (ToUint32 b mod 32))).

(** [a >>> b] *)
Definition ushr (a b : number) : number :=
  Int (Z.shiftr (ToUint32 a) (ToUint32 b mod 32)).

(** [~a] *)
Definition not (a : number) : number := Int (wrap32 (Z.lnot (ToInt32 a))).

(** [a & b] *)
Definition and (a b : number) : number :=
  Int (wrap32 (Z.land (ToInt32 a) (ToInt32 b))).

(** Number::toString on the integers printed in plain decimal notation
    (magnitude below 10^21; from there on JavaScript switches to exponent
    notation, which the handlers never reach: the only number they print lies
    in [1, 65535]). *)
Definition toString (a : number) : string :=
  match a with
  | Int z => NilZero.string_of_int (Z.to_int z)
  | PInf => "Infinity"
  | NInf => "-Infinity"
  | NaN => "NaN"
  end.

End Num.

(* ================================================================== *)
(** * Built-in functions on strings *)
(* ================================================================== *)

(** The white space [parseInt] skips (StrWhiteSpaceChar), within Latin-1:
    TAB, LF, VT, FF, CR, SPACE and NO-BREAK SPACE. *)
Definition is_whitespace (c : ascii) : bool :=
  let n := N_of_ascii c in
  (N.leb 9 n && N.leb n 13 || N.eqb n 32 || N.eqb n 160)%bool.

Fixpoint skip_whitespace (s : string) : string :=
  match s with
  | String c s' => if is_whitespace c then skip_whitespace s' else s
  | EmptyString => EmptyString
  end.

(** The longest prefix of decimal digits. *)
Fixpoint digit_prefix (s : string) : string :=
  match s with
  | String c s' => if is_digit c then String c (digit_prefix s') else EmptyString
  | EmptyString => EmptyString
  end.

(** [parseInt(s, 10)]: leading white space is skipped, one sign is read,
    then the longest run of decimal digits; with no digit the result is NaN,
    otherwise the Number value of the signed integer read. *)
Definition parseInt (s : string) : number :=
  let s1 := skip_whitespace s in
  let '(sign, s2) :=
    match s1 with
    | String "-" r => (-1, r)
    | String "+" r => (1, r)
    | _ => (1, s1)
    end in
  let z := digit_prefix s2 in
  match z with
  | EmptyString => NaN
  | _ => Num.of_Z (sign * decimal_value z)
  end.

(** [Number(s)] on the strings the program converts: sequences of decimal
    digits (in [isValidIPv4] the call is guarded by [/^\d+$/]; in [ipInCidr]
    the argument is a prefix length of the table).  Other strings are outside
    this model and mapped to NaN, which is not always what JavaScript gives:
    it reads the empty string as 0 and accepts white space, a sign, a
    fraction or an exponent around the digits.  Every result below that goes
    through [Number] has the argument a non-empty sequence of digits. *)
Definition Number (s : string) : number :=
  if Regex.test Regex.digits s then Num.of_Z (decimal_value s) else NaN.

(* ================================================================== *)
(** * JSON.stringify on the error objects *)
(* ================================================================== *)

Module JSON.

Definition dquote : ascii := "034"%char.
Definition backslash : ascii := "092"%char.

Definition hex_digit (n : N) : ascii :=
  if N.ltb n 10 then ascii_of_N (48 + n) else ascii_of_N (87 + n).

(** QuoteJSONString, one code unit at a time. *)
Definition escape_char (c : ascii) : string :=
  let n := N_of_ascii c in
  if N.eqb n 34 then String backslash (String dquote EmptyString)
  else if N.eqb n 92 then String backslash (String backslash EmptyString)
  else if N.eqb n 8 then String backslash "b"
  else if N.eqb n 12 then String backslash "f"
  else if N.eqb n 10 then String backslash "n"
  else if N.eqb n 13 then String backslash "r"
  else if N.eqb n 9 then String backslash "t"
  else if N.ltb n 32 then
    String backslash ("u00" ++ String (hex_digit (N.div n 16)) (String (hex_digit (N.modulo n 16)) EmptyString))
  else String c EmptyString.

Fixpoint escape (s : string) : string :=
  match s with
  | EmptyString => EmptyString
  | String c s' => escape_char c ++ escape s'
  end.

Definition quote (s : string) : string :=
  String dquote (escape s ++ String dquote EmptyString).

(** [JSON.stringify({ error: msg })] *)
Definition stringify_error (msg : string) : string :=
  "{" ++ quote "error" ++ ":" ++ quote msg ++ "}".

End JSON.

(* ================================================================== *)
(** * Requests, responses and the platform *)
(* ================================================================== *)

(** What a handler reads of a URL object: its serialization and its query
    parameters, in order. *)
Record URL : Type := {
  href : string;
  searchParams : list (string * string)
}.

(** [url.searchParams.get(name)]: the value of the first parameter of that
    name, or null. *)
Fixpoint searchParams_get (params : list (string * string)) (name : string)
  : option string :=
  match params with
  | [] => None
  | (k, v) :: rest => if String.eqb k name then Some v else searchParams_get rest name
  end.

(** The URL class belongs to the platform, not to the repository: [new_URL s]
    is what [new URL(s)] evaluates to, [None] when the constructor throws a
    TypeError. *)
Class Platform : Type := {
  new_URL : string -> option URL
}.

Record Request : Type := {
  url : string;
  method : string;
  request_headers : list (string * string);
  request_body : option string
}.

(** A response: status, headers in the order the handler lists them, and the
    body ([None] for a null body). *)
Record Response : Type := {
  status : Z;
  headers : list (string * string);
  body : option string
}.

(** How a call of a handler ends: it returns a response, or an exception
    leaves it. *)
Inductive Outcome : Type :=
| Returns (r : Response)
| Throws (exn : string).

(** [headers.get(name)] with the exact spelling the handlers use. *)
Fixpoint header (hs : list (string * string)) (name : string) : option string :=
  match hs with
  | [] => None
  | (k, v) :: rest => if String.eqb k name then Some v else header rest name
  end.

(** A value is falsy in [!v] when it is null or the empty string. *)
Definition falsy (v : option string) : bool :=
  match v with
  | None => true
  | Some s => String.eqb s EmptyString
  end.

(* ================================================================== *)
(** * The hardened handler (the script of README.md) *)
(* ================================================================== *)

Module Hardened.

(** [responseHeaders] *)
Definition responseHeaders : list (string * string) :=
  [ ("Content-Type", "application/json; charset=utf-8");
    ("X-Content-Type-Options", "nosniff");
    ("Content-Security-Policy", "default-src 'none';");
    ("Referrer-Policy", "no-referrer");
    ("X-Frame-Options", "DENY");
    ("Strict-Transport-Security", "max-age=31536000; includeSubDomains; preload") ].

(** [isValidIPv4]: the loop body returns false at the first failing test,
    so the loop is a conjunction over the parts. *)
Definition valid_part (part : string) : bool :=
  if negb (Regex.test Regex.digits part) then false
  else
    let num := Number part in
    if (Num.lt num (Int 0) || Num.gt num (Int 255))%bool then false
    else if ((1 <? Str.length part) && Str.startsWith part "0")%bool then false
    else true.

Definition isValidIPv4 (ip : string) : bool :=
  let parts := Str.split "." ip in
  if negb (Z.of_nat (List.length parts) =? 4) then false
  else forallb valid_part parts.

(** [ipv4ToInt] *)
Definition ipv4ToInt (ip : string) : number :=
  Num.ushr
    (fold_left (fun acc octet => Num.add (Num.shl acc (Int 8)) (parseInt octet))
               (Str.split "." ip) (Int 0))
    (Int 0).

(** The mask of [ipInCidr]: [~(2 ** (32 - prefixLength) - 1)]. *)
Definition cidr_mask (prefixLength : number) : number :=
  Num.not (Num.sub (Num.pow (Int 2) (Num.sub (Int 32) prefixLength)) (Int 1)).

(** [ipInCidr].  The destructuring [[range, prefixLength] = cidr.split("/")]
    binds [prefixLength] to undefined when the text has no slash, and
    [Number(undefined)] is NaN. *)
Definition ipInCidr (ip cidr : string) : bool :=
  let parts := Str.split "/" cidr in
  let range := nth 0 parts EmptyString in
  let prefixLength :=
    match nth_error parts 1 with
    | Some p => Number p
    | None => NaN
    end in
  let ipInt := ipv4ToInt ip in
  let rangeInt := ipv4ToInt range in
  let mask := cidr_mask prefixLength in
  Num.eqb (Num.and ipInt mask) (Num.and rangeInt mask).

(** [cidrBlocks] *)
Definition cidrBlocks : list string :=
  [ "0.0.0.0/8";
    "10.0.0.0/8";
    "127.0.0.0/8";
    "169.254.0.0/16";
    "172.16.0.0/12";
    "192.0.0.0/24";
    "192.168.0.0/16";
    "255.255.255.255/32" ].

(** [isPrivateOrReservedIP] *)
Definition isPrivateOrReservedIP (ip : string) : bool :=
  existsb (fun cidr => ipInCidr ip cidr) cidrBlocks.

(** [new Response(JSON.stringify({ error: msg }), { status: 400, headers: responseHeaders })] *)
Definition error_response (msg : string) : Response :=
  {| status := 400;
     headers := responseHeaders;
     body := Some (JSON.stringify_error msg) |}.

(** The body of [fetch] from the presence check on, for the two values read
    from the query. *)
Definition respond (ip port : option string) : Response :=
  if (falsy ip || falsy port)%bool then
    error_response "Missing 'ip' and 'port' parameters."
  else
    match ip, port with
    | Some ip, Some port =>
        if negb (isValidIPv4 ip) then
          error_response "'ip' parameter must be a valid IP address."
        else if isPrivateOrReservedIP ip then
          error_response "Redirecting to private or reserved IP addresses is not allowed."
        else if negb (Regex.test Regex.digits port) then
          error_response "'port' parameter must be a valid port number."
        else
          let portNumber := parseInt port in
          if (Num.lt portNumber (Int 1) || Num.gt portNumber (Int 65535))%bool then
            error_response "'port' parameter must be between 1 and 65535."
          else
            let steamUrl := "steam://connect/" ++ ip ++ ":" ++ Num.toString portNumber in
            let redirectHeaders := ("Location", steamUrl) :: responseHeaders in
            {| status := 301; headers := redirectHeaders; body := None |}
    | _, _ => error_response "Missing 'ip' and 'port' parameters."
    end.

Section Handler.
Context {platform : Platform}.

(** [fetch].  There is no try/catch in this handler: when [new URL] throws,
    the exception leaves [fetch]. *)
Definition fetch (request : Request) : Outcome :=
  match new_URL (url request) with
  | None => Throws "TypeError"
  | Some u =>
      let ip := searchParams_get (searchParams u) "ip" in
      let port := searchParams_get (searchParams u) "port" in
      Returns (respond ip port)
  end.

End Handler.

End Hardened.

(* ================================================================== *)
(** * The minimal handler (worker.js) *)
(* ================================================================== *)

Module Minimal.

Import Regex.

(** [(25[0-5]|2[0-4][0-9]|[01]?[0-9][0-9]?)] *)
Definition octet : regex :=
  Alt (Seq (Chr "2") (Seq (Chr "5") (Range "0" "5")))
      (Alt (Seq (Chr "2") (Seq (Range "0" "4") (Range "0" "9")))
           (Seq (Opt (Range "0" "1")) (Seq (Range "0" "9") (Opt (Range "0" "9"))))).

(** [ipPattern] *)
Definition ipPattern : regex :=
  Seq octet (Seq (Chr ".") (Seq octet (Seq (Chr ".") (Seq octet (Seq (Chr ".") octet))))).

(** [new Response(text, { status, headers: { "Content-Type": "text/plain" } })] *)
Definition text_response (st : Z) (text : string) : Response :=
  {| status := st; headers := [("Content-Type", "text/plain")]; body := Some text |}.

(** [try { body } catch (error) { handler }] *)
Definition try_catch (body : Outcome) (handler : string -> Outcome) : Outcome :=
  match body with
  | Returns r => Returns r
  | Throws e => handler e
  end.

Section Handler.
Context {platform : Platform}.

(** [Response.redirect(url, status)]: the URL is parsed (a TypeError when
    that fails) and its serialization becomes the Location header. *)
Definition Response_redirect (target : string) (st : Z) : Outcome :=
  match new_URL target with
  | None => Throws "TypeError"
  | Some u => Returns {| status := st; headers := [("Location", href u)]; body := None |}
  end.

(** [fetch].  The function is [async]: what is modelled is the value its
    promise settles with.  The [console.error] call of the catch block
    writes to the log and has no influence on the response. *)
Definition fetch (request : Request) : Outcome :=
  try_catch
    match new_URL (url request) with
    | None => Throws "TypeError"
    | Some u =>
        let ip := searchParams_get (searchParams u) "ip" in
        let port := searchParams_get (searchParams u) "port" in
        if (falsy ip || falsy port)%bool then
          Returns (text_response 400
            "Error: Missing one or more required parameters. 'ip' and 'port' are required.")
        else
          match ip, port with
          | Some ip, Some port =>
              if negb (Regex.test ipPattern ip) then
                Returns (text_response 400 "Error: 'ip' parameter must be a valid IPv4 address.")
              else
                let portNumber := parseInt port in
                if (Num.isNaN portNumber || Num.lt portNumber (Int 1)
                    || Num.gt portNumber (Int 65535))%bool then
                  Returns (text_response 400
                    "Error: 'port' parameter must be a valid port number between 1 and 65535.")
                else
                  let steamUrl := "steam://connect/" ++ ip ++ ":" ++ port in
                  Response_redirect steamUrl 302
          | _, _ =>
              Returns (text_response 400
                "Error: Missing one or more required parameters. 'ip' and 'port' are required.")
          end
    end
    (fun error =>
       Returns (text_response 500 "Internal Server Error: An unexpected error occurred.")).

End Handler.

End Minimal.

(* ================================================================== *)
(** * A reference platform for the closed examples *)
(* ================================================================== *)

(** The general theorems below hold for every [Platform].  The closed
    examples need one: [Demo.platform] reads URLs written without escapes.
    Like the URL constructor, it rejects a text with no scheme (a relative
    reference with no base); it takes the query to be what lies between the
    first [?] and the first [#], split on [&] and on the first [=] of each
    piece. *)
Module Demo.

Definition is_alpha (c : ascii) : bool :=
  (Regex.in_range "a" "z" c || Regex.in_range "A" "Z" c)%bool.

Definition is_scheme_char (c : ascii) : bool :=
  (is_alpha c || is_digit c || Ascii.eqb c "+" || Ascii.eqb c "-" || Ascii.eqb c ".")%bool.

Fixpoint scheme_rest (s : string) : bool :=
  match s with
  | EmptyString => false
  | String c r => if Ascii.eqb c ":" then true else (is_scheme_char c && scheme_rest r)%bool
  end.

Definition has_scheme (s : string) : bool :=
  match s with
  | EmptyString => false
  | String c r => (is_alpha c && scheme_rest r)%bool
  end.

(** The text before the first occurrence of [c]. *)
Fixpoint before (c : ascii) (s : string) : string :=
  match s with
  | EmptyString => EmptyString
  | String a r => if Ascii.eqb a c then EmptyString else String a (before c r)
  end.

(** The text after the first occurrence of [c], empty when there is none. *)
Fixpoint after (c : ascii) (s : string) : string :=
  match s with
  | EmptyString => EmptyString
  | String a r => if Ascii.eqb a c then r else after c r
  end.

Definition pair_of (piece : string) : string * string :=
  (before "=" piece, after "=" piece).

Definition query_pairs (q : string) : list (string * string) :=
  map pair_of (filter (fun p => negb (String.eqb p EmptyString)) (Str.split "&" q)).

Definition parse (s : string) : option URL :=
  if has_scheme s then
    Some {| href := s; searchParams := query_pairs (after "?" (before "#" s)) |}
  else None.

Definition platform : Platform := {| new_URL := parse |}.

Definition get (u : string) : Request :=
  {| url := u; method := "GET"; request_headers := []; request_body := None |}.

End Demo.

(* ================================================================== *)
(** * The specification's wording *)
(* ================================================================== *)

Module Spec.

(** ** Address Validator *)

(** A segment of a dotted quad: not empty, decimal digits only, a value in
    [0, 255], and no leading [0] unless the segment is exactly [0]. *)
Definition Octet (seg : string) : Prop :=
  seg <> EmptyString /\
  Str.forallb is_digit seg = true /\
  0 <= decimal_value seg <= 255 /\
  (Str.startsWith seg "0" = true -> seg = "0").

(** No occurrence of the separator. *)
Definition free_of (sep : ascii) (s : string) : Prop :=
  Str.forallb (fun c => negb (Ascii.eqb c sep)) s = true.

(** The string is four segments separated by three dots, each an [Octet]. *)
Definition DottedQuad (s : string) : Prop :=
  exists a b c d,
    Str.split "." s = [a; b; c; d] /\ Octet a /\ Octet b /\ Octet c /\ Octet d.

(** ** Range Classifier *)

(** The address with the first octet most significant. *)
Definition quad (a b c d : Z) : Z := a * 2 ^ 24 + b * 2 ^ 16 + c * 2 ^ 8 + d.

(** The unsigned 32-bit mask of a prefix length: the top [p] bits set, the
    bottom [32 - p] bits zero. *)
Definition umask (p : Z) : Z := 2 ^ 32 - 2 ^ (32 - p).

(** The eight blocks: base address and prefix length. *)
Definition blocks : list (Z * Z) :=
  [ (quad 0 0 0 0, 8);
    (quad 10 0 0 0, 8);
    (quad 127 0 0 0, 8);
    (quad 169 254 0 0, 16);
    (quad 172 16 0 0, 12);
    (quad 192 0 0 0, 24);
    (quad 192 168 0 0, 16);
    (quad 255 255 255 255, 32) ].

(** [(address & mask) == (blockBase & mask)] on unsigned 32-bit integers. *)
Definition in_block (address : Z) (block : Z * Z) : bool :=
  Z.land address (umask (snd block)) =? Z.land (fst block) (umask (snd block)).

Definition reserved (address : Z) : bool := existsb (in_block address) blocks.

(** ** Port Validator *)

(** One or more decimal digits and nothing else, denoting an integer of the
    closed interval [1, 65535]. *)
Definition PortOk (p : string) : Prop :=
  p <> EmptyString /\ Str.forallb is_digit p = true /\ 1 <= decimal_value p <= 65535.

(** ** The order of the checks *)

Inductive ErrorKind : Type :=
| MissingParameter
| InvalidAddressSyntax
| ForbiddenRange
| InvalidPortSyntax
| PortOutOfRange.

(** The text each kind is reported with. *)
Definition message (k : ErrorKind) : string :=
  match k with
  | MissingParameter => "Missing 'ip' and 'port' parameters."
  | InvalidAddressSyntax => "'ip' parameter must be a valid IP address."
  | ForbiddenRange => "Redirecting to private or reserved IP addresses is not allowed."
  | InvalidPortSyntax => "'port' parameter must be a valid port number."
  | PortOutOfRange => "'port' parameter must be between 1 and 65535."
  end.

(** The five checks in the order of the specification, each with the kind
    it reports; a check is a test that is true when it fails. *)
Definition checks (ip port : option string) : list (ErrorKind * bool) :=
  let ip_text := match ip with Some s => s | None => EmptyString end in
  let port_text := match port with Some s => s | None => EmptyString end in
  [ (MissingParameter, (falsy ip || falsy port)%bool);
    (InvalidAddressSyntax, negb (Hardened.isValidIPv4 ip_text));
    (ForbiddenRange, Hardened.isPrivateOrReservedIP ip_text);
    (InvalidPortSyntax, negb (negb (String.eqb port_text EmptyString) && Str.forallb is_digit port_text));
    (PortOutOfRange, negb ((1 <=? decimal_value port_text) && (decimal_value port_text <=? 65535))) ].

(** The redirect: status 301, the Location header in front of the fixed
    headers, no body.  The target is the scheme, the address as given, a
    colon and the canonical decimal text of the port. *)
Definition redirect (ip port : string) : Response :=
  {| status := 301;
     headers := ("Location", "steam://connect/" ++ ip ++ ":" ++ canonical_decimal port)
                  :: Hardened.responseHeaders;
     body := None |}.

(** The structured error of a kind: status 400, the fixed headers, the JSON
    object with the message of the kind. *)
Definition rejection (k : ErrorKind) : Response :=
  {| status := 400;
     headers := Hardened.responseHeaders;
     body := Some (JSON.stringify_error (message k)) |}.

(** The first failing check, if any. *)
Fixpoint first_failure (cs : list (ErrorKind * bool)) : option ErrorKind :=
  match cs with
  | [] => None
  | (k, failed) :: rest => if failed then Some k else first_failure rest
  end.

(** The five security headers. *)
Definition secure (hs : list (string * string)) : Prop :=
  header hs "X-Content-Type-Options" = Some "nosniff" /\
  header hs "Content-Security-Policy" = Some "default-src 'none';" /\
  header hs "Referrer-Policy" = Some "no-referrer" /\
  header hs "X-Frame-Options" = Some "DENY" /\
  header hs "Strict-Transport-Security" = Some "max-age=31536000; includeSubDomains; preload".

(** The outcome of the checks run in order. *)
Definition outcome (ip port : option string) : Response :=
  match first_failure (checks ip port) with
  | Some k => rejection k
  | None =>
      redirect (match ip with Some s => s | None => EmptyString end)
               (match port with Some s => s | None => EmptyString end)
  end.

End Spec.


(* ================================================================== *)
(** * Readings of the rest of the code *)
(* ================================================================== *)

(** What the pattern of worker.js admits: segments of one to three digits
    with a value up to 255, leading zeros allowed. *)
Module Loose.

Definition Octet (seg : string) : Prop :=
  Str.forallb is_digit seg = true /\
  (1 <= String.length seg <= 3)%nat /\
  decimal_value seg <= 255.

Definition DottedQuad (s : string) : Prop :=
  exists a b c d,
    Str.split "." s = [a; b; c; d] /\ Octet a /\ Octet b /\ Octet c /\ Octet d.

(** The first character is a decimal digit. *)
Definition starts_with_digit (s : string) : bool :=
  match s with
  | EmptyString => false
  | String c _ => is_digit c
  end.

(** The port texts [parseInt] reads the integer [n] from: white space, an
    optional plus sign, a run of digits denoting [n] that is not empty and
    not followed by a further digit, then any text. *)
Definition LeadingPort (port : string) (n : Z) : Prop :=
  exists ws sign ds rest,
    port = (ws ++ sign ++ ds ++ rest)%string /\
    Str.forallb is_whitespace ws = true /\
    (sign = EmptyString \/ sign = "+") /\
    ds <> EmptyString /\
    Str.forallb is_digit ds = true /\
    starts_with_digit rest = false /\
    n = decimal_value ds.

End Loose.

(** The reserved ranges, octet by octet. *)
Definition reserved_octets (a b c d : Z) : Prop :=
  a = 0 \/ a = 10 \/ a = 127 \/
  (a = 169 /\ b = 254) \/
  (a = 172 /\ 16 <= b <= 31) \/
  (a = 192 /\ b = 0 /\ c = 0) \/
  (a = 192 /\ b = 168) \/
  (a = 255 /\ b = 255 /\ c = 255 /\ d = 255).

(** The characters of a redirect target after the scheme: digits, dots and
    the colon. *)
Definition target_char (c : ascii) : bool :=
  (is_digit c || Ascii.eqb c "." || Ascii.eqb c ":")%bool.
(* ================================================================== *)
(** * The matcher decides the language of the pattern *)
(* ================================================================== *)

Module RegexFacts.
Import Regex.

Lemma append_nil_inv (s1 s2 : string) :
  (s1 ++ s2)%string = EmptyString -> s1 = EmptyString /\ s2 = EmptyString.
Proof.
  destruct s1; simpl; intros H; [auto | discriminate].
Qed.

Lemma nullable_Matches (r : regex) : nullable r = true -> Matches r EmptyString.
Proof.
  induction r; simpl; intros H; try discriminate.
  - constructor.
  - apply andb_true_iff in H as [H1 H2].
    change EmptyString with (EmptyString ++ EmptyString)%string.
    constructor; auto.
  - apply orb_true_iff in H as [H | H]; [apply MAltL | apply MAltR]; auto.
  - constructor.
Qed.

Lemma Matches_nullable (r : regex) (s : string) :
  Matches r s -> s = EmptyString -> nullable r = true.
Proof.
  induction 1; simpl; intros E; try discriminate; auto.
  - apply append_nil_inv in E as [E1 E2].
    rewrite IHMatches1, IHMatches2; auto.
  - rewrite IHMatches; auto.
  - rewrite IHMatches; auto using orb_true_r.
Qed.

Lemma deriv_sound (c : ascii) (r : regex) :
  forall s, Matches (deriv c r) s -> Matches r (String c s).
Proof.
  induction r; simpl; intros s H.
  - inversion H.
  - inversion H.
  - destruct (in_range lo hi c) eqn:E; inversion H; subst.
    constructor; assumption.
  - destruct (nullable r1) eqn:N.
    + inversion H; subst.
      * match goal with M : Matches (Seq _ _) _ |- _ => inversion M; subst end.
        change (String c (s1 ++ s2)) with (String c s1 ++ s2)%string.
        constructor; auto.
      * change (String c s) with (EmptyString ++ String c s)%string.
        constructor; auto using nullable_Matches.
    + inversion H; subst.
      change (String c (s1 ++ s2)) with (String c s1 ++ s2)%string.
      constructor; auto.
  - inversion H; subst; [apply MAltL | apply MAltR]; auto.
  - inversion H; subst.
    change (String c (s1 ++ s2)) with (String c s1 ++ s2)%string.
    constructor; auto.
Qed.

Lemma deriv_complete (r : regex) (t : string) :
  Matches r t -> forall c s, t = String c s -> Matches (deriv c r) s.
Proof.
  induction 1; intros a t E; simpl.
  - discriminate.
  - injection E as -> <-. rewrite H. constructor.
  - destruct s1 as [| b s1'].
    + simpl in E. subst s2.
      rewrite (Matches_nullable _ _ H eq_refl).
      apply MAltR. auto.
    + simpl in E. injection E as -> <-.
      destruct (nullable r1).
      * apply MAltL. constructor; auto.
      * constructor; auto.
  - apply MAltL; auto.
  - apply MAltR; auto.
  - discriminate.
  - simpl in E. injection E as -> <-.
    constructor; auto.
Qed.

(** [test] is membership in the language of the pattern. *)
Lemma test_Matches (s : string) : forall r, test r s = true <-> Matches r s.
Proof.
  induction s as [| c s IH]; intros r; simpl.
  - split; [apply nullable_Matches | intros H; eapply Matches_nullable; eauto].
  - rewrite IH. split; [apply deriv_sound | intros H; eapply deriv_complete; eauto].
Qed.

Lemma test_Alt (s : string) :
  forall r1 r2, test (Alt r1 r2) s = (test r1 s || test r2 s)%bool.
Proof.
  induction s as [| c s IH]; intros r1 r2; simpl; [reflexivity | apply IH].
Qed.

Lemma test_Seq_Void (s : string) : forall r, test (Seq Void r) s = false.
Proof.
  induction s as [| c s IH]; intros r; simpl; [reflexivity | apply IH].
Qed.

Lemma test_Eps_Star_digit (s : string) :
  test (Seq Eps (Star digit)) s = Str.forallb is_digit s.
Proof.
  induction s as [| c s IH]; simpl; [reflexivity |].
  rewrite test_Alt, test_Seq_Void. simpl.
  unfold is_digit at 1.
  destruct (in_range "0" "9" c); simpl; [apply IH | apply test_Seq_Void].
Qed.

(** [/^\d+$/.test(s)]: [s] is not empty and all its characters are
    decimal digits. *)
Lemma test_digits (s : string) :
  test digits s = (negb (String.eqb s EmptyString) && Str.forallb is_digit s)%bool.
Proof.
  destruct s as [| c s]; simpl; [reflexivity |].
  unfold is_digit at 1.
  destruct (in_range "0" "9" c); simpl; [apply test_Eps_Star_digit | apply test_Seq_Void].
Qed.

End RegexFacts.

(* ================================================================== *)
(** * Facts on numbers *)
(* ================================================================== *)

Module NumFacts.

Lemma round53_small (n : Z) : 0 <= n < 2 ^ 53 -> Num.round53 n = n.
Proof.
  intros [H0 H1]. unfold Num.round53.
  destruct (Z.eq_dec n 0) as [-> | Hn]; [reflexivity |].
  assert (Z.log2 n < 53) by (apply Z.log2_lt_pow2; lia).
  destruct (Z.ltb_spec (Z.log2 n) 53); [reflexivity | lia].
Qed.

Lemma round53_large (n : Z) : 2 ^ 53 <= n -> 2 ^ 53 <= Num.round53 n.
Proof.
  intros H. unfold Num.round53.
  assert (Hk : 53 <= Z.log2 n) by (apply Z.log2_le_pow2; lia).
  destruct (Z.ltb_spec (Z.log2 n) 53) as [? | _]; [lia |].
  set (k := Z.log2 n) in *. set (e := k - 52).
  assert (He : 0 < e) by (unfold e; lia).
  assert (Hlo : 2 ^ k <= n) by (apply Z.log2_spec; lia).
  assert (Hq : 2 ^ 52 <= Z.shiftr n e).
  { rewrite Z.shiftr_div_pow2 by lia.
    apply Z.div_le_lower_bound; [apply Z.pow_pos_nonneg; lia |].
    rewrite <- Z.pow_add_r by lia. replace (e + 52) with k by (unfold e; lia).
    exact Hlo. }
  set (q := Z.shiftr n e) in *.
  assert (Hq' : q <= (if n - Z.shiftl q e <? Z.shiftl 1 (e - 1) then q
                      else if Z.shiftl 1 (e - 1) <? n - Z.shiftl q e then q + 1
                      else if Z.even q then q else q + 1)).
  { repeat match goal with |- context [if ?b then _ else _] => destruct b end; lia. }
  match goal with |- _ <= Z.shiftl ?x e => set (q' := x) in * end.
  rewrite Z.shiftl_mul_pow2 by lia.
  assert (0 < 2 ^ e) by (apply Z.pow_pos_nonneg; lia).
  assert (2 ^ 53 <= 2 ^ 52 * 2 ^ e).
  { rewrite <- Z.pow_add_r by lia. apply Z.pow_le_mono_r; lia. }
  nia.
Qed.

(** Integers of magnitude below 2^53 are Number values. *)
Lemma of_Z_small (z : Z) : - 2 ^ 53 < z < 2 ^ 53 -> Num.of_Z z = Int z.
Proof.
  intros H. unfold Num.of_Z.
  rewrite round53_small by lia.
  destruct (Z.leb_spec (2 ^ 1024) (Z.abs z)) as [Hbig | _].
  - assert (2 ^ 53 <= 2 ^ 1024) by (apply Z.pow_le_mono_r; lia). lia.
  - f_equal. lia.
Qed.

(** Rounding never takes an integer from 2^53 on below 2^53. *)
Lemma of_Z_large (n : Z) :
  2 ^ 53 <= n -> Num.of_Z n = PInf \/ exists m, Num.of_Z n = Int m /\ 2 ^ 53 <= m.
Proof.
  intros H. unfold Num.of_Z.
  assert (H53 : 0 < 2 ^ 53) by (apply Z.pow_pos_nonneg; lia).
  replace (Z.abs n) with n by lia.
  pose proof (round53_large n H) as Hr.
  destruct (Z.leb_spec (2 ^ 1024) (Num.round53 n)).
  - left. destruct (Z.ltb_spec n 0); [lia | reflexivity].
  - right. eexists; split; [reflexivity |].
    replace (Z.sgn n) with 1 by lia. lia.
Qed.

(** Comparing the Number value of a non-negative integer with a small
    integer bound gives the comparison of the integers. *)
Lemma gt_of_Z (n b : Z) :
  0 <= n -> 0 <= b < 2 ^ 53 -> Num.gt (Num.of_Z n) (Int b) = (b <? n).
Proof.
  intros Hn Hb.
  destruct (Z.lt_ge_cases n (2 ^ 53)) as [Hs | Hl].
  - rewrite of_Z_small by lia. reflexivity.
  - destruct (of_Z_large n Hl) as [-> | [m [-> Hm]]]; unfold Num.gt; simpl;
      repeat match goal with
             | |- context [?x <? ?y] => destruct (Z.ltb_spec x y)
             end; try reflexivity; lia.
Qed.

Lemma lt_of_Z (n b : Z) :
  0 <= n -> 0 <= b < 2 ^ 53 -> Num.lt (Num.of_Z n) (Int b) = (n <? b).
Proof.
  intros Hn Hb.
  destruct (Z.lt_ge_cases n (2 ^ 53)) as [Hs | Hl].
  - rewrite of_Z_small by lia. reflexivity.
  - destruct (of_Z_large n Hl) as [-> | [m [-> Hm]]]; simpl;
      repeat match goal with
             | |- context [?x <? ?y] => destruct (Z.ltb_spec x y)
             end; try reflexivity; lia.
Qed.

Lemma of_Z_not_NaN (z : Z) : Num.of_Z z <> NaN.
Proof.
  unfold Num.of_Z.
  destruct (2 ^ 1024 <=? Num.round53 (Z.abs z)); [destruct (z <? 0) |]; discriminate.
Qed.

End NumFacts.

(* ================================================================== *)
(** * Facts on decimal digit strings *)
(* ================================================================== *)

Module Digits.

Lemma is_digit_cases (c : ascii) :
  is_digit c = true ->
  (c = "0" \/ c = "1" \/ c = "2" \/ c = "3" \/ c = "4" \/
   c = "5" \/ c = "6" \/ c = "7" \/ c = "8" \/ c = "9")%char.
Proof.
  destruct c as [[|] [|] [|] [|] [|] [|] [|] [|]]; intros H;
    try discriminate H; tauto.
Qed.

Ltac digit_cases c H :=
  destruct (is_digit_cases c H)
    as [-> | [-> | [-> | [-> | [-> | [-> | [-> | [-> | [-> | ->]]]]]]]]].

Lemma digit_value_range (c : ascii) : is_digit c = true -> 0 <= digit_value c <= 9.
Proof.
  intros H. digit_cases c H; vm_compute; split; discriminate.
Qed.

Lemma digit_not_whitespace (c : ascii) : is_digit c = true -> is_whitespace c = false.
Proof.
  intros H. digit_cases c H; reflexivity.
Qed.

Lemma decimal_acc_ge (s : string) :
  forall acc, Str.forallb is_digit s = true -> 0 <= acc -> acc <= decimal_acc acc s.
Proof.
  induction s as [| c s IH]; cbn [decimal_acc Str.forallb]; intros acc H Hacc; [lia |].
  apply andb_true_iff in H as [Hc Hs].
  pose proof (digit_value_range c Hc).
  specialize (IH (10 * acc + digit_value c) Hs). lia.
Qed.

Lemma decimal_value_nonneg (s : string) :
  Str.forallb is_digit s = true -> 0 <= decimal_value s.
Proof.
  intros H. apply (decimal_acc_ge s 0 H). lia.
Qed.

Lemma digit_prefix_all (s : string) :
  Str.forallb is_digit s = true -> digit_prefix s = s.
Proof.
  induction s as [| c s IH]; simpl; intros H; [reflexivity |].
  apply andb_true_iff in H as [Hc Hs]. rewrite Hc, IH; auto.
Qed.

Lemma test_digits_inv (s : string) :
  Regex.test Regex.digits s = true ->
  exists c s', s = String c s' /\ is_digit c = true /\ Str.forallb is_digit s' = true.
Proof.
  rewrite RegexFacts.test_digits. destruct s as [| c s']; simpl; [discriminate |].
  intros H. apply andb_true_iff in H as [Hc Hs]. eauto.
Qed.

Lemma test_digits_forallb (s : string) :
  Regex.test Regex.digits s = true -> Str.forallb is_digit s = true.
Proof.
  intros H. destruct (test_digits_inv s H) as (c & s' & -> & Hc & Hs).
  simpl. rewrite Hc, Hs. reflexivity.
Qed.

(** On a string that passed [/^\d+$/], [parseInt] reads all of it. *)
Lemma parseInt_digits (s : string) :
  Regex.test Regex.digits s = true -> parseInt s = Num.of_Z (decimal_value s).
Proof.
  intros H. destruct (test_digits_inv s H) as (c & s' & -> & Hc & Hs).
  unfold parseInt. simpl skip_whitespace.
  rewrite (digit_not_whitespace c Hc).
  digit_cases c Hc; cbn [digit_prefix]; rewrite (digit_prefix_all s' Hs);
    change (is_digit _) with true; cbv iota; rewrite Z.mul_1_l; reflexivity.
Qed.

Lemma Number_digits (s : string) :
  Regex.test Regex.digits s = true -> Number s = Num.of_Z (decimal_value s).
Proof.
  intros H. unfold Number. rewrite H. reflexivity.
Qed.

(** After the all-digit test the parsed number is not NaN. *)
Lemma parseInt_digits_not_NaN (s : string) :
  Regex.test Regex.digits s = true -> parseInt s <> NaN.
Proof.
  intros H. rewrite (parseInt_digits s H). apply NumFacts.of_Z_not_NaN.
Qed.

(** ** Printing the value of a digit string gives its canonical form *)

Lemma uint_of_digits (s : string) :
  Str.forallb is_digit s = true -> exists d, NilEmpty.uint_of_string s = Some d.
Proof.
  induction s as [| c s IH]; simpl; intros H; [eauto |].
  apply andb_true_iff in H as [Hc Hs].
  destruct (IH Hs) as [d ->].
  digit_cases c Hc; simpl; eauto.
Qed.

Lemma decimal_acc_of_lu (s : string) :
  forall d a,
    NilEmpty.uint_of_string s = Some d ->
    decimal_acc (Z.of_N (Unsigned.of_lu a)) s = Z.of_N (Unsigned.of_lu (revapp d a)).
Proof.
  induction s as [| c s IH]; cbn [decimal_acc NilEmpty.uint_of_string]; intros d a H.
  - injection H as <-. reflexivity.
  - destruct (NilEmpty.uint_of_string s) as [d' |] eqn:E; [| discriminate].
    apply uint_of_char_spec in H.
    repeat destruct H as [[-> ->] | H]; [.. | destruct H as [-> ->]];
      cbn [revapp]; rewrite <- (IH d' _ eq_refl); f_equal;
      cbn [Unsigned.of_lu];
      match goal with
      | |- context [digit_value ?c] =>
          let v := eval vm_compute in (digit_value c) in change (digit_value c) with v
      end; lia.
Qed.

Lemma decimal_value_of_uint (s : string) (d : uint) :
  NilEmpty.uint_of_string s = Some d -> decimal_value s = Z.of_N (N.of_uint d).
Proof.
  intros H. unfold decimal_value, N.of_uint.
  rewrite Unsigned.of_uint_alt. unfold rev.
  apply (decimal_acc_of_lu s d Nil H).
Qed.

Lemma to_int_of_N (n : N) : Z.to_int (Z.of_N n) = Pos (N.to_uint n).
Proof. destruct n; reflexivity. Qed.

Lemma string_of_nzhead (s : string) :
  forall d, NilEmpty.uint_of_string s = Some d ->
            NilEmpty.string_of_uint (nzhead d) = strip_zeros s.
Proof.
  induction s as [| c s IH]; simpl; intros d H.
  - injection H as <-. reflexivity.
  - destruct (NilEmpty.uint_of_string s) as [d' |] eqn:E; [| discriminate].
    pose proof (NilEmpty.sus s d' E) as Hs.
    apply uint_of_char_spec in H.
    repeat destruct H as [[-> ->] | H]; [.. | destruct H as [-> ->]];
      simpl; rewrite ?Hs; auto.
Qed.

(** [String(Number(s))] for a digit string [s]: the digits without their
    leading zeros. *)
Lemma toString_decimal_value (s : string) :
  Str.forallb is_digit s = true ->
  Num.toString (Int (decimal_value s)) = canonical_decimal s.
Proof.
  intros H. destruct (uint_of_digits s H) as [d Hd].
  unfold Num.toString, canonical_decimal.
  rewrite (decimal_value_of_uint s d Hd), to_int_of_N.
  rewrite DecimalN.Unsigned.to_of.
  rewrite <- (string_of_nzhead s d Hd).
  unfold unorm, NilZero.string_of_int, NilZero.string_of_uint.
  destruct (nzhead d); reflexivity.
Qed.

End Digits.

(* ================================================================== *)
(** * Facts on [split] *)
(* ================================================================== *)

Module SplitFacts.

Lemma split_nonempty (sep : ascii) (s : string) : Str.split sep s <> [].
Proof.
  destruct s as [| c s]; simpl; [discriminate |].
  destruct (Ascii.eqb c sep); [discriminate |].
  destruct (Str.split sep s); discriminate.
Qed.

(** Joining the segments gives the string back. *)
Lemma join_split (sep : ascii) (s : string) : Str.join sep (Str.split sep s) = s.
Proof.
  induction s as [| c s IH]; simpl; [reflexivity |].
  destruct (Ascii.eqb_spec c sep) as [-> | Hne].
  - pose proof (split_nonempty sep s) as Hn.
    destruct (Str.split sep s) as [| p ps] eqn:E; [contradiction |].
    change (Str.join sep (EmptyString :: p :: ps))
      with (String sep (Str.join sep (p :: ps))).
    rewrite IH. reflexivity.
  - pose proof (split_nonempty sep s) as Hn.
    destruct (Str.split sep s) as [| p ps] eqn:E; [contradiction |].
    destruct ps as [| q qs]; simpl in *; rewrite <- IH; reflexivity.
Qed.

(** No segment contains the separator. *)
Lemma split_free (sep : ascii) (s : string) :
  Forall (Spec.free_of sep) (Str.split sep s).
Proof.
  induction s as [| c s IH]; simpl.
  - repeat constructor.
  - destruct (Ascii.eqb_spec c sep) as [-> | Hne].
    + constructor; [reflexivity | exact IH].
    + destruct (Str.split sep s) as [| p ps]; [repeat constructor |].
      * unfold Spec.free_of. simpl.
        destruct (Ascii.eqb_spec c sep); [contradiction | reflexivity].
      * inversion IH; subst. constructor; [| assumption].
        unfold Spec.free_of in *. simpl.
        destruct (Ascii.eqb_spec c sep); [contradiction | assumption].
Qed.

(** A string of digits contains no dot. *)
Lemma digits_free_of_dot (s : string) :
  Str.forallb is_digit s = true -> Spec.free_of "." s.
Proof.
  unfold Spec.free_of.
  induction s as [| c s IH]; simpl; intros H; [reflexivity |].
  apply andb_true_iff in H as [Hc Hs]. rewrite (IH Hs).
  Digits.digit_cases c Hc; reflexivity.
Qed.

Lemma split_free_one (sep : ascii) (s : string) :
  Spec.free_of sep s -> Str.split sep s = [s].
Proof.
  unfold Spec.free_of.
  induction s as [| c s IH]; simpl; intros H; [reflexivity |].
  apply andb_true_iff in H as [Hc Hs].
  destruct (Ascii.eqb c sep); [discriminate |].
  rewrite (IH Hs). reflexivity.
Qed.

Lemma split_app (sep : ascii) (a r : string) :
  Spec.free_of sep a ->
  Str.split sep (a ++ String sep r) = a :: Str.split sep r.
Proof.
  unfold Spec.free_of.
  induction a as [| c a IH]; simpl; intros H.
  - rewrite Ascii.eqb_refl. reflexivity.
  - apply andb_true_iff in H as [Hc Hs].
    destruct (Ascii.eqb c sep); [discriminate |].
    rewrite (IH Hs). reflexivity.
Qed.

End SplitFacts.

(* ================================================================== *)
(** * The Address Validator *)
(* ================================================================== *)

Module AddressValidator.
Import Hardened.

Lemma leading_zero_rule (seg : string) :
  ((1 <? Str.length seg) && Str.startsWith seg "0")%bool = false <->
  (Str.startsWith seg "0" = true -> seg = "0").
Proof.
  destruct seg as [| c r].
  - cbn. split; [intros _ H; discriminate H | reflexivity].
  - unfold Str.length. cbn [Str.startsWith String.length].
    destruct (Ascii.eqb_spec c "0") as [-> | Hne].
    + rewrite andb_true_r. destruct r as [| c' r'].
      * cbn. split; reflexivity.
      * split; [| intros H; specialize (H eq_refl); discriminate].
        intros H. exfalso. apply Z.ltb_ge in H.
        cbn [String.length] in H. lia.
    + rewrite andb_false_r. split; [intros _ H; discriminate H | reflexivity].
Qed.

(** The tests of the loop body are the conditions on a segment. *)
Lemma valid_part_Octet (seg : string) : valid_part seg = true <-> Spec.Octet seg.
Proof.
  unfold valid_part, Spec.Octet.
  destruct (Regex.test Regex.digits seg) eqn:T; cbn [negb].
  - pose proof (Digits.test_digits_forallb seg T) as Hd.
    pose proof (Digits.decimal_value_nonneg seg Hd) as Hv.
    rewrite (Digits.Number_digits seg T).
    rewrite NumFacts.lt_of_Z, NumFacts.gt_of_Z by (try split; try lia; reflexivity).
    assert (Hne : seg <> EmptyString).
    { destruct (Digits.test_digits_inv seg T) as (c & s' & -> & _). discriminate. }
    destruct (Z.ltb_spec (decimal_value seg) 0); [lia |].
    destruct (Z.ltb_spec 255 (decimal_value seg)); cbn [orb].
    + split; [discriminate | intros (_ & _ & ? & _); lia].
    + destruct ((1 <? Str.length seg) && Str.startsWith seg "0")%bool eqn:L.
      * split; [discriminate |]. intros (_ & _ & _ & Hz).
        pose proof (proj2 (leading_zero_rule seg) Hz). congruence.
      * pose proof (proj1 (leading_zero_rule seg) L) as L'.
        split; [intros _; repeat split; auto; lia | intros _; reflexivity].
  - split; [discriminate |]. intros (Hne & Hd & _).
    rewrite RegexFacts.test_digits, Hd in T.
    destruct seg; [contradiction | discriminate].
Qed.

Lemma isValidIPv4_DottedQuad (s : string) : isValidIPv4 s = true <-> Spec.DottedQuad s.
Proof.
  unfold isValidIPv4, Spec.DottedQuad.
  destruct (Str.split "." s) as [| a [| b [| c [| d [| e l]]]]] eqn:E;
    try (split; [discriminate | intros (? & ? & ? & ? & H & _); discriminate H]).
  - cbn [List.length negb forallb]. simpl Z.eqb. cbn [negb].
    rewrite andb_true_r, !andb_true_iff, !valid_part_Octet.
    split.
    + intros (Ha & Hb & Hc & Hd). exists a, b, c, d. auto.
    + intros (a' & b' & c' & d' & H & Ha & Hb & Hc & Hd).
      injection H as -> -> -> ->. auto.
  - split; [| intros (? & ? & ? & ? & H & _); discriminate H].
    cbn [List.length]. intros H. exfalso.
    destruct (Z.eqb_spec (Z.of_nat (S (S (S (S (S (List.length l))))))) 4); [lia | discriminate].
Qed.

(** Splitting on dots into four segments is being the four segments written
    with three dots between them. *)
Lemma DottedQuad_text (s : string) :
  Spec.DottedQuad s <->
  exists a b c d,
    s = (a ++ "." ++ b ++ "." ++ c ++ "." ++ d)%string /\
    Spec.Octet a /\ Spec.Octet b /\ Spec.Octet c /\ Spec.Octet d.
Proof.
  split; intros (a & b & c & d & H & Ha & Hb & Hc & Hd); exists a, b, c, d;
    (split; [| auto]).
  - rewrite <- (SplitFacts.join_split "." s), H. reflexivity.
  - subst s.
    destruct Ha as (_ & Ha & _), Hb as (_ & Hb & _), Hc as (_ & Hc & _), Hd as (_ & Hd & _).
    cbn [append].
    rewrite !SplitFacts.split_app by (apply SplitFacts.digits_free_of_dot; assumption).
    rewrite SplitFacts.split_free_one by (apply SplitFacts.digits_free_of_dot; assumption).
    reflexivity.
Qed.

End AddressValidator.

(* ================================================================== *)
(** * The Range Classifier *)
(* ================================================================== *)

Module RangeClassifier.
Import Hardened.

(** ** 32-bit coercions *)

Import Num.

Lemma wrap32_range (z : Z) : - 2 ^ 31 <= wrap32 z < 2 ^ 31.
Proof.
  unfold wrap32, Num.ToInt32, Num.ToUint32.
  pose proof (Z.mod_pos_bound z (2 ^ 32) eq_refl).
  change (2 ^ 32) with 4294967296 in *. change (2 ^ 31) with 2147483648.
  destruct (Z.ltb_spec (z mod 4294967296) 2147483648); lia.
Qed.

Lemma wrap32_mod (z : Z) : wrap32 z mod 2 ^ 32 = z mod 2 ^ 32.
Proof.
  unfold wrap32, Num.ToInt32, Num.ToUint32.
  destruct (Z.ltb_spec (z mod 2 ^ 32) (2 ^ 31)).
  - apply Z.mod_mod. discriminate.
  - replace (z mod 2 ^ 32 - 2 ^ 32) with (z mod 2 ^ 32 + (-1) * 2 ^ 32) by ring.
    rewrite Z.mod_add by discriminate. apply Z.mod_mod. discriminate.
Qed.

Lemma wrap32_small (z : Z) : - 2 ^ 31 <= z < 2 ^ 31 -> wrap32 z = z.
Proof.
  intros H. unfold wrap32, Num.ToInt32, Num.ToUint32.
  change (2 ^ 32) with 4294967296 in *. change (2 ^ 31) with 2147483648 in *.
  destruct (Z.ltb_spec (z mod 4294967296) 2147483648) as [L | L].
  - destruct (Z.neg_nonneg_cases z) as [Hn | Hp].
    + exfalso. replace z with (z + 4294967296 + (-1) * 4294967296) in L by ring.
      rewrite Z.mod_add, Z.mod_small in L by lia. lia.
    + apply Z.mod_small. lia.
  - destruct (Z.neg_nonneg_cases z) as [Hn | Hp].
    + replace z with (z + 4294967296 + (-1) * 4294967296) at 1 by ring.
      rewrite Z.mod_add, Z.mod_small by lia. lia.
    + rewrite Z.mod_small in L by lia. lia.
Qed.

Lemma wrap32_inj (a b : Z) : wrap32 a = wrap32 b <-> a mod 2 ^ 32 = b mod 2 ^ 32.
Proof.
  split; intros H.
  - rewrite <- (wrap32_mod a), <- (wrap32_mod b), H. reflexivity.
  - unfold wrap32, Num.ToInt32, Num.ToUint32. rewrite H. reflexivity.
Qed.

Lemma land_mod (a b : Z) :
  Z.land a b mod 2 ^ 32 = Z.land (a mod 2 ^ 32) (b mod 2 ^ 32).
Proof.
  rewrite <- !Z.land_ones by lia.
  apply Z.bits_inj'. intros n Hn. rewrite !Z.land_spec.
  destruct (Z.testbit a n), (Z.testbit b n), (Z.testbit (Z.ones 32) n); reflexivity.
Qed.

(** The signed comparison of [ipInCidr] is the unsigned one. *)
Lemma and_eqb (x y m : Z) :
  Num.eqb (Num.and (Int x) (Int m)) (Num.and (Int y) (Int m)) =
  (Z.land (x mod 2 ^ 32) (m mod 2 ^ 32) =? Z.land (y mod 2 ^ 32) (m mod 2 ^ 32)).
Proof.
  unfold Num.and, Num.eqb. fold (wrap32 x) (wrap32 y) (wrap32 m).
  rewrite <- (wrap32_mod x), <- (wrap32_mod y), <- (wrap32_mod m), <- !land_mod.
  destruct (Z.eqb_spec (Z.land (wrap32 x) (wrap32 m) mod 2 ^ 32)
                       (Z.land (wrap32 y) (wrap32 m) mod 2 ^ 32)) as [E | E].
  - apply Z.eqb_eq, wrap32_inj, E.
  - apply Z.eqb_neq. intros H. apply E, wrap32_inj, H.
Qed.

(** ** The mask *)

Lemma umask_range (p : Z) : 0 <= p <= 32 -> 0 <= Spec.umask p < 2 ^ 32.
Proof.
  intros H. unfold Spec.umask.
  assert (0 < 2 ^ (32 - p)) by (apply Z.pow_pos_nonneg; lia).
  assert (2 ^ (32 - p) <= 2 ^ 32) by (apply Z.pow_le_mono_r; lia).
  lia.
Qed.

Lemma umask_shift (p : Z) : 0 <= p <= 32 -> Spec.umask p = Z.shiftl (Z.ones p) (32 - p).
Proof.
  intros H. unfold Spec.umask.
  rewrite Z.shiftl_mul_pow2, Z.ones_equiv by lia.
  rewrite <- Z.sub_1_r, Z.mul_sub_distr_r, <- Z.pow_add_r by lia.
  replace (p + (32 - p)) with 32 by lia. lia.
Qed.

(** The top [p] bits of the mask are set, the bottom [32 - p] bits are
    zero. *)
Lemma umask_bits (p i : Z) :
  0 <= p <= 32 -> 0 <= i < 32 -> Z.testbit (Spec.umask p) i = (32 - p <=? i).
Proof.
  intros Hp Hi. rewrite umask_shift by assumption.
  rewrite Z.shiftl_spec by lia.
  destruct (Z.leb_spec (32 - p) i) as [L | L].
  - apply Z.ones_spec_low. lia.
  - apply Z.testbit_neg_r. lia.
Qed.

(** The mask computed by the code, read as an unsigned 32-bit integer, is
    the mask of the prefix length. *)
Lemma cidr_mask_umask (p : Z) :
  0 <= p <= 32 -> exists m, cidr_mask (Int p) = Int m /\ m mod 2 ^ 32 = Spec.umask p.
Proof.
  intros H. replace p with (Z.of_nat (Z.to_nat p)) by lia.
  assert (Hn : (Z.to_nat p <= 32)%nat) by lia.
  revert Hn. generalize (Z.to_nat p). intros n Hn.
  do 33 (destruct n as [| n];
         [eexists; split; [vm_compute; reflexivity | vm_compute; reflexivity] |]).
  lia.
Qed.

(** ** The address as an integer *)

Lemma Octet_test (seg : string) : Spec.Octet seg -> Regex.test Regex.digits seg = true.
Proof.
  intros (Hne & Hd & _). rewrite RegexFacts.test_digits, Hd.
  destruct seg; [contradiction | reflexivity].
Qed.

Lemma parseInt_Octet (seg : string) :
  Spec.Octet seg -> parseInt seg = Int (decimal_value seg).
Proof.
  intros H. rewrite (Digits.parseInt_digits seg (Octet_test seg H)).
  destruct H as (_ & _ & Hv & _).
  apply NumFacts.of_Z_small. change (2 ^ 53) with 9007199254740992. lia.
Qed.

Lemma shl8 (x : Z) : Num.shl (Int x) (Int 8) = Int (wrap32 (wrap32 x * 256)).
Proof.
  unfold Num.shl. fold (wrap32 x).
  change (Num.ToUint32 (Int 8) mod 32) with 8.
  rewrite Z.shiftl_mul_pow2 by lia. reflexivity.
Qed.

Lemma add_small (x y : Z) :
  - 2 ^ 52 < x < 2 ^ 52 -> - 2 ^ 52 < y < 2 ^ 52 -> Num.add (Int x) (Int y) = Int (x + y).
Proof.
  intros Hx Hy. unfold Num.add. apply NumFacts.of_Z_small.
  change (2 ^ 53) with 9007199254740992. change (2 ^ 52) with 4503599627370496 in *. lia.
Qed.

(** One round of the [reduce] of [ipv4ToInt] on an accumulator that still
    fits: shift by one octet and add. *)
Lemma reduce_step (acc : Z) (seg : string) :
  0 <= acc < 2 ^ 23 -> Spec.Octet seg ->
  Num.add (Num.shl (Int acc) (Int 8)) (parseInt seg) = Int (acc * 256 + decimal_value seg).
Proof.
  intros Ha Ho. rewrite shl8, (parseInt_Octet seg Ho).
  destruct Ho as (_ & _ & Hv & _).
  change (2 ^ 23) with 8388608 in Ha.
  rewrite (wrap32_small acc) by (change (2 ^ 31) with 2147483648; lia).
  rewrite wrap32_small by (change (2 ^ 31) with 2147483648; lia).
  apply add_small; change (2 ^ 52) with 4503599627370496; lia.
Qed.

(** On a valid address [ipv4ToInt] is the big-endian value of the four
    octets. *)
Lemma ipv4ToInt_quad (s a b c d : string) :
  Str.split "." s = [a; b; c; d] ->
  Spec.Octet a -> Spec.Octet b -> Spec.Octet c -> Spec.Octet d ->
  ipv4ToInt s =
  Int (Spec.quad (decimal_value a) (decimal_value b) (decimal_value c) (decimal_value d)).
Proof.
  intros E Ha Hb Hc Hd. unfold ipv4ToInt. rewrite E. cbn [fold_left].
  pose proof Ha as (_ & _ & Va & _). pose proof Hb as (_ & _ & Vb & _).
  pose proof Hc as (_ & _ & Vc & _). pose proof Hd as (_ & _ & Vd & _).
  rewrite (reduce_step 0 a) by (try assumption; change (2 ^ 23) with 8388608; lia).
  rewrite (reduce_step _ b) by (try assumption; change (2 ^ 23) with 8388608; lia).
  rewrite (reduce_step _ c) by (try assumption; change (2 ^ 23) with 8388608; lia).
  rewrite shl8, (parseInt_Octet d Hd).
  set (x := (0 * 256 + decimal_value a) * 256 + decimal_value b).
  set (y := x * 256 + decimal_value c).
  assert (Hy : 0 <= y < 16777216) by (unfold y, x; lia).
  rewrite (wrap32_small y) by (change (2 ^ 31) with 2147483648; lia).
  pose proof (wrap32_range (y * 256)) as Hw.
  change (2 ^ 31) with 2147483648 in Hw.
  rewrite add_small by (change (2 ^ 52) with 4503599627370496; lia).
  unfold Num.ushr. change (Num.ToUint32 (Int 0) mod 32) with 0.
  rewrite Z.shiftr_0_r. unfold Num.ToUint32. f_equal.
  rewrite Z.add_mod, wrap32_mod, <- Z.add_mod by discriminate.
  rewrite Z.mod_small by (change (2 ^ 32) with 4294967296; lia).
  unfold Spec.quad, y, x.
  change (2 ^ 24) with 16777216. change (2 ^ 16) with 65536. change (2 ^ 8) with 256.
  ring.
Qed.

Lemma quad_range (a b c d : Z) :
  0 <= a <= 255 -> 0 <= b <= 255 -> 0 <= c <= 255 -> 0 <= d <= 255 ->
  0 <= Spec.quad a b c d < 2 ^ 32.
Proof.
  intros. unfold Spec.quad.
  change (2 ^ 24) with 16777216. change (2 ^ 16) with 65536. change (2 ^ 8) with 256.
  change (2 ^ 32) with 4294967296. lia.
Qed.

(** ** Membership in a block *)

Lemma ipInCidr_in_block (ip cidr range prefix : string) (x base p : Z) :
  Str.split "/" cidr = [range; prefix] ->
  Number prefix = Int p -> 0 <= p <= 32 ->
  ipv4ToInt range = Int base -> 0 <= base < 2 ^ 32 ->
  ipv4ToInt ip = Int x -> 0 <= x < 2 ^ 32 ->
  ipInCidr ip cidr = Spec.in_block x (base, p).
Proof.
  intros Es Ep Hp Eb Hb Ex Hx. unfold ipInCidr. rewrite Es. cbn [nth nth_error].
  rewrite Ep, Eb, Ex.
  destruct (cidr_mask_umask p Hp) as (m & -> & Hm).
  rewrite and_eqb, Hm, !Z.mod_small by assumption. reflexivity.
Qed.

(** On an address whose integer is [x], the classifier is the test of the
    eight blocks on [x]. *)
Lemma isPrivateOrReservedIP_reserved (ip : string) (x : Z) :
  ipv4ToInt ip = Int x -> 0 <= x < 2 ^ 32 ->
  isPrivateOrReservedIP ip = Spec.reserved x.
Proof.
  intros Ex Hx. unfold isPrivateOrReservedIP, Spec.reserved, cidrBlocks, Spec.blocks.
  cbn [existsb].
  repeat match goal with
  | |- context [ipInCidr ip ?cidr] =>
      match eval vm_compute in (Str.split "/" cidr) with
      | [?r; ?pstr] =>
          match eval vm_compute in (Number pstr) with
          | Int ?p =>
              match eval vm_compute in (ipv4ToInt r) with
              | Int ?base =>
                  rewrite (ipInCidr_in_block ip cidr r pstr x base p
                             eq_refl eq_refl ltac:(lia) eq_refl ltac:(vm_compute; split; [discriminate | reflexivity]) Ex Hx)
              end
          end
      end
  end.
  reflexivity.
Qed.

End RangeClassifier.

(* ================================================================== *)
(** * The handler follows the checks in order *)
(* ================================================================== *)

Module HandlerFacts.
Import Hardened.

Lemma strip_zeros_value (s : string) : decimal_value (strip_zeros s) = decimal_value s.
Proof.
  induction s as [| c s IH]; [reflexivity |].
  destruct (Ascii.eqb_spec c "0") as [-> | Hne].
  - cbn [strip_zeros]. rewrite IH. reflexivity.
  - replace (strip_zeros (String c s)) with (String c s); [reflexivity |].
    destruct c as [[|] [|] [|] [|] [|] [|] [|] [|]]; try reflexivity.
    contradiction Hne. reflexivity.
Qed.

Lemma strip_zeros_head (s : string) : Str.startsWith (strip_zeros s) "0" = false.
Proof.
  induction s as [| c s IH]; [reflexivity |].
  destruct (Ascii.eqb_spec c "0") as [-> | Hne].
  - cbn [strip_zeros]. exact IH.
  - replace (strip_zeros (String c s)) with (String c s).
    + simpl. destruct (Ascii.eqb_spec c "0"); [contradiction | reflexivity].
    + destruct c as [[|] [|] [|] [|] [|] [|] [|] [|]]; try reflexivity.
      contradiction Hne. reflexivity.
Qed.

(** The canonical text of a positive value keeps the value and has no
    leading zero. *)
Lemma canonical_decimal_positive (s : string) :
  1 <= decimal_value s ->
  canonical_decimal s = strip_zeros s /\
  decimal_value (canonical_decimal s) = decimal_value s /\
  Str.startsWith (canonical_decimal s) "0" = false.
Proof.
  intros H. unfold canonical_decimal.
  pose proof (strip_zeros_value s) as Hv. pose proof (strip_zeros_head s) as Hh.
  destruct (strip_zeros s) as [| c r]; [cbn in Hv; lia | auto].
Qed.

(** The port tests of the code are the tests on the exact value. *)
Lemma port_tests (port : string) :
  Regex.test Regex.digits port = true ->
  (Num.lt (parseInt port) (Int 1) || Num.gt (parseInt port) (Int 65535))%bool =
  negb ((1 <=? decimal_value port) && (decimal_value port <=? 65535)).
Proof.
  intros T.
  pose proof (Digits.decimal_value_nonneg port (Digits.test_digits_forallb port T)) as Hv.
  rewrite (Digits.parseInt_digits port T).
  rewrite NumFacts.lt_of_Z, NumFacts.gt_of_Z by (try split; try lia; reflexivity).
  destruct (Z.ltb_spec (decimal_value port) 1), (Z.ltb_spec 65535 (decimal_value port)),
    (Z.leb_spec 1 (decimal_value port)), (Z.leb_spec (decimal_value port) 65535);
    try reflexivity; lia.
Qed.

Lemma port_text (port : string) :
  Regex.test Regex.digits port = true ->
  1 <= decimal_value port <= 65535 ->
  Num.toString (parseInt port) = canonical_decimal port.
Proof.
  intros T Hv. rewrite (Digits.parseInt_digits port T).
  rewrite NumFacts.of_Z_small by (change (2 ^ 53) with 9007199254740992; lia).
  apply Digits.toString_decimal_value, Digits.test_digits_forallb, T.
Qed.

(** From the presence check on, the handler answers with the first failing
    check of the ordered list, or with the redirect. *)
Lemma respond_outcome (ip port : option string) : respond ip port = Spec.outcome ip port.
Proof.
  unfold respond, Spec.outcome, Spec.checks. cbn [Spec.first_failure].
  destruct (falsy ip || falsy port)%bool eqn:F; [reflexivity |].
  destruct ip as [ip |]; [| discriminate F].
  destruct port as [port |]; [| cbn [falsy] in F; rewrite orb_true_r in F; discriminate F].
  destruct (isValidIPv4 ip); cbn [negb]; [| reflexivity].
  destruct (isPrivateOrReservedIP ip); [reflexivity |].
  rewrite <- RegexFacts.test_digits.
  destruct (Regex.test Regex.digits port) eqn:T; cbn [negb]; [| reflexivity].
  rewrite (port_tests port T).
  destruct ((1 <=? decimal_value port) && (decimal_value port <=? 65535))%bool eqn:R;
    cbn [negb]; [| reflexivity].
  apply andb_true_iff in R as [R1 R2]. apply Z.leb_le in R1, R2.
  rewrite (port_text port T) by lia. reflexivity.
Qed.

Section Fetch.
Context {platform : Platform}.

Lemma fetch_parsed (request : Request) (u : URL) :
  new_URL (url request) = Some u ->
  fetch request =
  Returns (Spec.outcome (searchParams_get (searchParams u) "ip")
                        (searchParams_get (searchParams u) "port")).
Proof.
  intros H. unfold fetch. rewrite H, respond_outcome. reflexivity.
Qed.

Lemma fetch_throws (request : Request) :
  new_URL (url request) = None -> fetch request = Throws "TypeError".
Proof.
  intros H. unfold fetch. rewrite H. reflexivity.
Qed.

End Fetch.

(** Every response of the checks is a rejection or the redirect. *)
Lemma outcome_cases (ip port : option string) :
  (exists k, Spec.first_failure (Spec.checks ip port) = Some k /\
             Spec.outcome ip port = Spec.rejection k) \/
  (exists i p, ip = Some i /\ port = Some p /\
               Spec.first_failure (Spec.checks ip port) = None /\
               Spec.outcome ip port = Spec.redirect i p).
Proof.
  unfold Spec.outcome.
  destruct (Spec.first_failure (Spec.checks ip port)) as [k |] eqn:E.
  - left. eauto.
  - right. unfold Spec.checks in E. cbn [Spec.first_failure] in E.
    destruct ip as [i |]; [| discriminate E].
    destruct port as [p |]; [| cbn [falsy] in E; rewrite orb_true_r in E; discriminate E].
    exists i, p. auto.
Qed.

(** The messages tell the kinds apart. *)
Lemma message_inj (k1 k2 : Spec.ErrorKind) : Spec.message k1 = Spec.message k2 -> k1 = k2.
Proof.
  destruct k1, k2; intros H; try reflexivity; discriminate H.
Qed.

End HandlerFacts.

(* ================================================================== *)
(** * Facts on the minimal handler and on the headers *)
(* ================================================================== *)

Module VariantFacts.

(** Case analysis on the innermost test of the goal. *)
Ltac case_test :=
  match goal with
  | |- context [match ?x with _ => _ end] =>
      lazymatch x with
      | context [match _ with _ => _ end] => fail
      | _ => destruct x
      end
  end.

Section Handlers.
Context {platform : Platform}.

(** The minimal handler always returns: its catch block turns every
    exception into the 500 response. *)
Lemma minimal_returns (request : Request) : exists r, Minimal.fetch request = Returns r.
Proof.
  unfold Minimal.fetch, Minimal.try_catch, Minimal.Response_redirect.
  repeat case_test; eauto.
Qed.

Lemma minimal_url_fault (request : Request) :
  new_URL (url request) = None ->
  Minimal.fetch request =
  Returns (Minimal.text_response 500 "Internal Server Error: An unexpected error occurred.").
Proof.
  intros H. unfold Minimal.fetch. rewrite H. reflexivity.
Qed.


End Handlers.

(** The five security headers are on every rejection and on the redirect. *)
Lemma outcome_secure (ip port : option string) :
  Spec.secure (headers (Spec.outcome ip port)) /\
  (status (Spec.outcome ip port) = 301 \/ status (Spec.outcome ip port) = 400).
Proof.
  destruct (HandlerFacts.outcome_cases ip port)
    as [(k & _ & ->) | (i & p & _ & _ & _ & ->)].
  - split; [repeat split | right; reflexivity].
  - split; [repeat split | left; reflexivity].
Qed.

(** Every response of the hardened handler has status 301 or 400 and the
    five security headers. *)
Lemma hardened_secure {platform : Platform} (request : Request) (r : Response) :
  Hardened.fetch request = Returns r ->
  (status r = 301 \/ status r = 400) /\ Spec.secure (headers r).
Proof.
  intros H. unfold Hardened.fetch in H.
  destruct (new_URL (url request)) as [u |]; [| discriminate H].
  injection H as <-. rewrite HandlerFacts.respond_outcome.
  destruct (outcome_secure (searchParams_get (searchParams u) "ip")
                           (searchParams_get (searchParams u) "port")) as [S St].
  split; assumption.
Qed.

End VariantFacts.

(* ================================================================== *)
(** * The properties of the specification *)
(* ================================================================== *)

(** C1.  Range Classifier.  On every syntactically valid dotted quad,
    [ipv4ToInt] is the unsigned 32-bit integer with the first octet most
    significant, and [isPrivateOrReservedIP] answers true exactly when
    [(address & mask) == (blockBase & mask)] holds for one of the eight
    blocks, [mask] being the unsigned mask with the top [prefixLength] bits
    set.  For every prefix length from 0 to 32 the mask the code computes,
    [~(2 ** (32 - prefixLength) - 1)], is a signed 32-bit integer with the
    bits of that unsigned mask, and the signed comparison of the code
    decides the unsigned one. *)
Theorem range_classifier_cidr_blocks (s : string) :
  Hardened.isValidIPv4 s = true ->
  (exists a b c d : Z,
      0 <= a <= 255 /\ 0 <= b <= 255 /\ 0 <= c <= 255 /\ 0 <= d <= 255 /\
      map decimal_value (Str.split "." s) = [a; b; c; d] /\
      Hardened.ipv4ToInt s = Int (Spec.quad a b c d) /\
      0 <= Spec.quad a b c d < 2 ^ 32 /\
      (Hardened.isPrivateOrReservedIP s = true <->
       exists base p,
         In (base, p) Spec.blocks /\
         Z.land (Spec.quad a b c d) (Spec.umask p) = Z.land base (Spec.umask p))) /\
  (forall p : Z,
      0 <= p <= 32 ->
      0 <= Spec.umask p < 2 ^ 32 /\
      (forall i, 0 <= i < 32 -> Z.testbit (Spec.umask p) i = (32 - p <=? i)) /\
      exists m,
        Hardened.cidr_mask (Int p) = Int m /\
        - 2 ^ 31 <= m < 2 ^ 31 /\
        m mod 2 ^ 32 = Spec.umask p /\
        forall x y,
          0 <= x < 2 ^ 32 -> 0 <= y < 2 ^ 32 ->
          (Num.eqb (Num.and (Int x) (Int m)) (Num.and (Int y) (Int m)) = true <->
           Z.land x (Spec.umask p) = Z.land y (Spec.umask p))).
Proof.
  intros V. split.
  - apply AddressValidator.isValidIPv4_DottedQuad in V.
    destruct V as (pa & pb & pc & pd & E & Ha & Hb & Hc & Hd).
    pose proof Ha as (_ & _ & Va & _). pose proof Hb as (_ & _ & Vb & _).
    pose proof Hc as (_ & _ & Vc & _). pose proof Hd as (_ & _ & Vd & _).
    exists (decimal_value pa), (decimal_value pb), (decimal_value pc), (decimal_value pd).
    pose proof (RangeClassifier.ipv4ToInt_quad s pa pb pc pd E Ha Hb Hc Hd) as Q.
    pose proof (RangeClassifier.quad_range _ _ _ _ Va Vb Vc Vd) as R.
    repeat (split; [assumption |]).
    split; [rewrite E; reflexivity |].
    repeat (split; [assumption |]).
    rewrite (RangeClassifier.isPrivateOrReservedIP_reserved s _ Q R).
    unfold Spec.reserved. rewrite existsb_exists. split.
    + intros ([base p] & Hin & Hb'). exists base, p. split; [assumption |].
      apply Z.eqb_eq. exact Hb'.
    + intros (base & p & Hin & Hb'). exists (base, p). split; [assumption |].
      apply Z.eqb_eq. exact Hb'.
  - intros p Hp. split; [apply RangeClassifier.umask_range; assumption |].
    split; [intros i Hi; apply RangeClassifier.umask_bits; assumption |].
    destruct (RangeClassifier.cidr_mask_umask p Hp) as (m & Em & Hm).
    exists m. split; [assumption |]. split.
    + unfold Hardened.cidr_mask, Num.not in Em. injection Em as <-.
      apply RangeClassifier.wrap32_range.
    + split; [assumption |]. intros x y Hx Hy.
      rewrite RangeClassifier.and_eqb, Hm, !Z.mod_small by assumption.
      apply Z.eqb_eq.
Qed.

Lemma range_classifier_cidr_blocks_witness :
  Hardened.isValidIPv4 "172.31.255.254" = true /\
  Hardened.isPrivateOrReservedIP "172.31.255.254" = true /\
  exists a b c d : Z,
    map decimal_value (Str.split "." "172.31.255.254") = [a; b; c; d] /\
    Hardened.ipv4ToInt "172.31.255.254" = Int (Spec.quad a b c d).
Proof.
  split; [reflexivity |]. split; [reflexivity |].
  destruct (proj1 (range_classifier_cidr_blocks "172.31.255.254" eq_refl))
    as (a & b & c & d & _ & _ & _ & _ & E & Q & _).
  exists a, b, c, d. split; assumption.
Defined.

(** C2.  Success response.  When the address passes the Address Validator
    and is not private or reserved, and the port is all digits with a value
    in [1, 65535], the hardened handler returns status 301, a null body, and
    the Location header [steam://connect/] followed by the address as given,
    a colon, and the canonical decimal text of the port: the digits of the
    port without leading zeros, denoting the same number. *)
Theorem redirect_on_valid_request {platform : Platform}
    (request : Request) (u : URL) (ip port : string) :
  new_URL (url request) = Some u ->
  searchParams_get (searchParams u) "ip" = Some ip ->
  searchParams_get (searchParams u) "port" = Some port ->
  Hardened.isValidIPv4 ip = true ->
  Hardened.isPrivateOrReservedIP ip = false ->
  Str.forallb is_digit port = true ->
  1 <= decimal_value port <= 65535 ->
  Hardened.fetch request =
    Returns {| status := 301;
               headers := ("Location",
                           "steam://connect/" ++ ip ++ ":" ++ canonical_decimal port)
                            :: Hardened.responseHeaders;
               body := None |} /\
  canonical_decimal port = strip_zeros port /\
  decimal_value (canonical_decimal port) = decimal_value port /\
  Str.startsWith (canonical_decimal port) "0" = false.
Proof.
  intros Hu Hip Hport V P D R.
  split; [| apply HandlerFacts.canonical_decimal_positive; lia].
  rewrite (HandlerFacts.fetch_parsed request u Hu), Hip, Hport.
  unfold Spec.outcome, Spec.checks. cbn [Spec.first_failure falsy].
  assert (Hi : String.eqb ip EmptyString = false).
  { destruct ip; [discriminate V | reflexivity]. }
  assert (Hp : String.eqb port EmptyString = false).
  { destruct port; [cbn in R; lia | reflexivity]. }
  rewrite Hi, Hp, V, P, D. cbn [orb negb andb].
  destruct (Z.leb_spec 1 (decimal_value port)); [| lia].
  destruct (Z.leb_spec (decimal_value port) 65535); [| lia].
  reflexivity.
Qed.

Lemma redirect_on_valid_request_witness :
  Hardened.fetch (platform := Demo.platform)
    (Demo.get "https://steam-connect.hexane.co/?ip=51.68.200.55&port=00027015") =
  Returns {| status := 301;
             headers := ("Location", "steam://connect/51.68.200.55:27015")
                          :: Hardened.responseHeaders;
             body := None |}.
Proof.
  refine (proj1 (@redirect_on_valid_request Demo.platform
            (Demo.get "https://steam-connect.hexane.co/?ip=51.68.200.55&port=00027015")
            {| href := "https://steam-connect.hexane.co/?ip=51.68.200.55&port=00027015";
               searchParams := [("ip", "51.68.200.55"); ("port", "00027015")] |}
            "51.68.200.55" "00027015" eq_refl eq_refl eq_refl eq_refl eq_refl eq_refl _)).
  vm_compute. split; discriminate.
Defined.

(** C3, as the code has it.  When the URL constructor accepts the request
    URL, the hardened handler returns a response, with status 301 or 400,
    and no exception leaves it.  It has no catch-all: when the constructor
    rejects the URL, the TypeError leaves the handler.  The minimal handler
    returns a response for every request, and answers a rejected URL with
    status 500 and a generic text. *)
Theorem faults_of_the_two_handlers {platform : Platform} (request : Request) :
  (forall u, new_URL (url request) = Some u ->
             exists r, Hardened.fetch request = Returns r /\
                       (status r = 301 \/ status r = 400)) /\
  (new_URL (url request) = None -> Hardened.fetch request = Throws "TypeError") /\
  (exists r, Minimal.fetch request = Returns r) /\
  (new_URL (url request) = None ->
   Minimal.fetch request =
   Returns {| status := 500;
              headers := [("Content-Type", "text/plain")];
              body := Some "Internal Server Error: An unexpected error occurred." |}).
Proof.
  split; [| split; [| split]].
  - intros u Hu. rewrite (HandlerFacts.fetch_parsed request u Hu).
    eexists. split; [reflexivity |]. apply VariantFacts.outcome_secure.
  - apply HandlerFacts.fetch_throws.
  - apply VariantFacts.minimal_returns.
  - apply VariantFacts.minimal_url_fault.
Qed.

Lemma faults_of_the_two_handlers_witness :
  (exists r, Hardened.fetch (platform := Demo.platform)
               (Demo.get "https://steam-connect.hexane.co/?ip=51.68.200.55") = Returns r /\
             (status r = 301 \/ status r = 400)) /\
  Minimal.fetch (platform := Demo.platform) (Demo.get "not a url") =
  Returns {| status := 500;
             headers := [("Content-Type", "text/plain")];
             body := Some "Internal Server Error: An unexpected error occurred." |}.
Proof.
  split.
  - exact (proj1 (@faults_of_the_two_handlers Demo.platform
                    (Demo.get "https://steam-connect.hexane.co/?ip=51.68.200.55"))
                 _ eq_refl).
  - exact (proj2 (proj2 (proj2 (@faults_of_the_two_handlers Demo.platform
                                  (Demo.get "not a url")))) eq_refl).
Defined.

(** C3, as stated, fails: on a request whose URL the constructor rejects
    the hardened handler returns no response at all, the exception leaves
    it. *)
Lemma hardened_fault_not_converted :
  Hardened.fetch (platform := Demo.platform) (Demo.get "not a url") = Throws "TypeError" /\
  ~ (exists r, Hardened.fetch (platform := Demo.platform) (Demo.get "not a url") = Returns r).
Proof.
  split; [reflexivity |]. intros [r H]. discriminate H.
Qed.

(** C4.  Address Validator.  [isValidIPv4] answers true exactly for the
    strings that split on the dot into four segments, each not empty, all
    digits, of value in [0, 255] and without a leading zero unless it is
    [0] itself; these are the texts of four such segments joined by dots.
    A string with another number of segments, or with a segment breaking one
    of the conditions, is answered false.  The function returns a boolean
    only: the string is left as it is. *)
Theorem address_validator_dotted_quad (s : string) :
  (Hardened.isValidIPv4 s = true <-> Spec.DottedQuad s) /\
  (Spec.DottedQuad s <->
   exists a b c d,
     s = (a ++ "." ++ b ++ "." ++ c ++ "." ++ d)%string /\
     Spec.Octet a /\ Spec.Octet b /\ Spec.Octet c /\ Spec.Octet d) /\
  (List.length (Str.split "." s) <> 4%nat -> Hardened.isValidIPv4 s = false) /\
  (forall seg, In seg (Str.split "." s) -> ~ Spec.Octet seg ->
               Hardened.isValidIPv4 s = false).
Proof.
  split; [apply AddressValidator.isValidIPv4_DottedQuad |].
  split; [apply AddressValidator.DottedQuad_text |].
  split.
  - intros H. apply not_true_is_false. intros V.
    apply AddressValidator.isValidIPv4_DottedQuad in V.
    destruct V as (a & b & c & d & E & _). rewrite E in H. apply H. reflexivity.
  - intros seg Hin Hno. apply not_true_is_false. intros V.
    apply AddressValidator.isValidIPv4_DottedQuad in V.
    destruct V as (a & b & c & d & E & Ha & Hb & Hc & Hd). rewrite E in Hin.
    destruct Hin as [<- | [<- | [<- | [<- | []]]]]; contradiction.
Qed.

Lemma address_validator_dotted_quad_witness :
  Hardened.isValidIPv4 "51.68.200.55" = true /\
  Hardened.isValidIPv4 "51.68.200.055" = false /\
  Hardened.isValidIPv4 "1.2.3" = false.
Proof.
  split; [| split].
  - apply (proj2 (proj1 (address_validator_dotted_quad "51.68.200.55"))).
    exists "51", "68", "200", "55".
    repeat split; try discriminate; vm_compute; congruence.
  - apply (proj2 (proj2 (proj2 (address_validator_dotted_quad "51.68.200.055"))) "055").
    + vm_compute. tauto.
    + intros (_ & _ & _ & H). specialize (H eq_refl). discriminate H.
  - apply (proj1 (proj2 (proj2 (address_validator_dotted_quad "1.2.3")))).
    vm_compute. discriminate.
Defined.

(** C5.  Port Validator.  On a request with a valid, public address, the
    hardened handler answers with the redirect exactly when the port is one
    or more decimal digits and nothing else and denotes an integer of
    [1, 65535]; otherwise it answers 400.  The ports [0], [65536], [-1],
    [abc] and the empty one are rejected. *)
Theorem port_validator_accepts {platform : Platform}
    (request : Request) (u : URL) (ip : string) :
  new_URL (url request) = Some u ->
  searchParams_get (searchParams u) "ip" = Some ip ->
  Hardened.isValidIPv4 ip = true ->
  Hardened.isPrivateOrReservedIP ip = false ->
  exists r,
    Hardened.fetch request = Returns r /\
    (status r = 301 \/ status r = 400) /\
    (status r = 301 <->
     exists p, searchParams_get (searchParams u) "port" = Some p /\ Spec.PortOk p) /\
    (forall p, In p ["0"; "65536"; "-1"; "abc"; EmptyString] ->
               searchParams_get (searchParams u) "port" = Some p -> status r = 400).
Proof.
  intros Hu Hip V P.
  rewrite (HandlerFacts.fetch_parsed request u Hu), Hip.
  eexists. split; [reflexivity |].
  split; [apply VariantFacts.outcome_secure |].
  assert (Hi : String.eqb ip EmptyString = false).
  { destruct ip; [discriminate V | reflexivity]. }
  assert (Main : status (Spec.outcome (Some ip) (searchParams_get (searchParams u) "port")) = 301
                 <-> exists p, searchParams_get (searchParams u) "port" = Some p /\ Spec.PortOk p).
  { unfold Spec.outcome, Spec.checks, Spec.PortOk. cbn [Spec.first_failure falsy].
    rewrite Hi, V, P. cbn [orb negb].
    destruct (searchParams_get (searchParams u) "port") as [p |]; cbn [falsy].
    - destruct (String.eqb_spec p EmptyString) as [-> | Hne]; cbn [negb andb].
      + split; [discriminate |]. intros (p & [= <-] & Hn & _). contradiction.
      + destruct (Str.forallb is_digit p) eqn:D; cbn [negb].
        * destruct (Z.leb_spec 1 (decimal_value p)); cbn [andb negb];
            [destruct (Z.leb_spec (decimal_value p) 65535); cbn [negb] |].
          -- split; [intros _; exists p; repeat split; auto; lia | reflexivity].
          -- split; [discriminate |]. intros (q & [= <-] & _ & _ & ?). lia.
          -- split; [discriminate |]. intros (q & [= <-] & _ & _ & ?). lia.
        * split; [discriminate |]. intros (q & [= <-] & _ & ? & _). congruence.
    - split; [discriminate |]. intros (q & ? & _). discriminate. }
  split; [exact Main |].
  intros p Hin Hp.
  destruct (VariantFacts.outcome_secure (Some ip) (searchParams_get (searchParams u) "port"))
    as [_ [S | S]]; [| exact S].
  exfalso. apply Main in S. destruct S as (q & Hq & Hne & Hd & Hv).
  rewrite Hp in Hq. injection Hq as <-.
  destruct Hin as [<- | [<- | [<- | [<- | [<- | []]]]]];
    try (vm_compute in Hv; destruct Hv as [Hv1 Hv2];
         first [apply Hv1; reflexivity | apply Hv2; reflexivity]);
    discriminate Hd.
Qed.

Lemma port_validator_accepts_witness :
  exists r,
    Hardened.fetch (platform := Demo.platform)
      (Demo.get "https://steam-connect.hexane.co/?ip=51.68.200.55&port=65536") = Returns r /\
    status r = 400.
Proof.
  destruct (@port_validator_accepts Demo.platform
              (Demo.get "https://steam-connect.hexane.co/?ip=51.68.200.55&port=65536")
              {| href := "https://steam-connect.hexane.co/?ip=51.68.200.55&port=65536";
                 searchParams := [("ip", "51.68.200.55"); ("port", "65536")] |}
              "51.68.200.55" eq_refl eq_refl eq_refl eq_refl)
    as (r & Hr & _ & _ & Hbad).
  exists r. split; [exact Hr |].
  apply (Hbad "65536"); [simpl; tauto | reflexivity].
Defined.

(** The JSON text of each error body: the object with the one member
    [error] holding the message as it is, no character of the five messages
    needing an escape.  Different checks give different bodies. *)
Module BodyFacts.

Lemma error_body_text (k : Spec.ErrorKind) :
  JSON.stringify_error (Spec.message k) =
  ("{" ++ String "034" ("error" ++ String "034" (":" ++ String "034"
     (Spec.message k ++ String "034" "}"))))%string.
Proof.
  destruct k; reflexivity.
Qed.

Lemma error_body_inj (k1 k2 : Spec.ErrorKind) :
  JSON.stringify_error (Spec.message k1) = JSON.stringify_error (Spec.message k2) ->
  k1 = k2.
Proof.
  destruct k1, k2; intros H; try reflexivity; vm_compute in H; discriminate H.
Qed.

End BodyFacts.

(** C6, as the code has it.  On every request whose URL the URL
    constructor accepts, the hardened handler answers as the five checks run
    in the order presence, address syntax, reserved range, port format, port
    range decide.  The first failing check alone determines the response:
    status 400, the fixed headers, no Location header, and as body the JSON
    object whose member [error] is the message of that check; the bodies of
    different checks differ.  With no failing check the response is the
    redirect, with no body.  An invalid address is reported as such whatever
    the port is; the range check is reported only for syntactically valid
    addresses.  (When the constructor rejects the URL there is no response:
    see C3.) *)
Theorem checks_in_fixed_order {platform : Platform} (request : Request) (u : URL) :
  new_URL (url request) = Some u ->
  let ip := searchParams_get (searchParams u) "ip" in
  let port := searchParams_get (searchParams u) "port" in
  Hardened.fetch request = Returns (Spec.outcome ip port) /\
  map fst (Spec.checks ip port) =
    [Spec.MissingParameter; Spec.InvalidAddressSyntax; Spec.ForbiddenRange;
     Spec.InvalidPortSyntax; Spec.PortOutOfRange] /\
  ((exists k,
       Spec.first_failure (Spec.checks ip port) = Some k /\
       Spec.outcome ip port =
         {| status := 400;
            headers := Hardened.responseHeaders;
            body := Some ("{" ++ String "034" ("error" ++ String "034" (":" ++ String "034"
                            (Spec.message k ++ String "034" "}")))) |} /\
       header (headers (Spec.outcome ip port)) "Location" = None) \/
   (exists i p,
       ip = Some i /\ port = Some p /\
       Spec.first_failure (Spec.checks ip port) = None /\
       Spec.outcome ip port =
         {| status := 301;
            headers := ("Location", "steam://connect/" ++ i ++ ":" ++ canonical_decimal p)
                         :: Hardened.responseHeaders;
            body := None |})) /\
  (forall k1 k2, Spec.message k1 = Spec.message k2 -> k1 = k2) /\
  (forall k1 k2, body (Spec.rejection k1) = body (Spec.rejection k2) -> k1 = k2) /\
  (forall i p, ip = Some i -> port = Some p -> i <> EmptyString -> p <> EmptyString ->
               Hardened.isValidIPv4 i = false ->
               Spec.first_failure (Spec.checks ip port) = Some Spec.InvalidAddressSyntax) /\
  (Spec.first_failure (Spec.checks ip port) = Some Spec.ForbiddenRange ->
   exists i, ip = Some i /\ Hardened.isValidIPv4 i = true).
Proof.
  intros Hu ip port.
  split; [apply (HandlerFacts.fetch_parsed request u Hu) |].
  split; [reflexivity |].
  split.
  { destruct (HandlerFacts.outcome_cases ip port)
      as [(k & E & O) | (i & p & Ei & Ep & E & O)].
    - left. exists k. rewrite O. split; [assumption |]. split; [| reflexivity].
      unfold Spec.rejection. rewrite BodyFacts.error_body_text. reflexivity.
    - right. exists i, p. repeat split; assumption. }
  split; [exact HandlerFacts.message_inj |].
  split.
  { intros k1 k2 H. unfold Spec.rejection in H. cbn [body] in H.
    apply BodyFacts.error_body_inj.
    exact (f_equal (fun o => match o with Some t => t | None => EmptyString end) H). }
  split.
  - intros i p -> -> Hi Hp V. unfold Spec.checks. cbn [Spec.first_failure falsy].
    apply String.eqb_neq in Hi, Hp. rewrite Hi, Hp, V. reflexivity.
  - unfold Spec.checks. cbn [Spec.first_failure].
    destruct (falsy ip || falsy port)%bool eqn:F; [discriminate |].
    destruct ip as [i |]; [| discriminate F].
    destruct (Hardened.isValidIPv4 i) eqn:V; cbn [negb]; [| discriminate].
    intros _. exists i. split; [reflexivity | exact V].
Qed.

Lemma checks_in_fixed_order_witness :
  Hardened.fetch (platform := Demo.platform)
    (Demo.get "https://steam-connect.hexane.co/?ip=51.68.200.055&port=abc") =
  Returns {| status := 400;
             headers := Hardened.responseHeaders;
             body := Some (JSON.stringify_error "'ip' parameter must be a valid IP address.") |}.
Proof.
  exact (proj1 (@checks_in_fixed_order Demo.platform
                  (Demo.get "https://steam-connect.hexane.co/?ip=51.68.200.055&port=abc")
                  {| href := "https://steam-connect.hexane.co/?ip=51.68.200.055&port=abc";
                     searchParams := [("ip", "51.68.200.055"); ("port", "abc")] |}
                  eq_refl)).
Defined.

(** C6, as stated for every request, fails: on a request whose URL has no
    scheme the constructor throws before any check is made, and the outcome
    is neither a redirect nor a structured error, although the query holds a
    valid address and port. *)
Lemma checks_not_reached_without_url :
  ~ (exists r,
       Hardened.fetch (platform := Demo.platform)
         (Demo.get "//steam-connect.hexane.co/?ip=51.68.200.55&port=27015") = Returns r /\
       (status r = 301 \/ status r = 400)).
Proof.
  intros (r & H & _). discriminate H.
Qed.

(** C7.  Security headers.  Every response of the hardened handler, the 301
    redirect and each 400 error, carries the five security headers:
    X-Content-Type-Options: nosniff, Content-Security-Policy:
    default-src 'none';, Referrer-Policy: no-referrer, X-Frame-Options: DENY
    and Strict-Transport-Security with max-age=31536000 and
    includeSubDomains. *)
Theorem security_headers_on_every_response {platform : Platform}
    (request : Request) (r : Response) :
  Hardened.fetch request = Returns r ->
  (status r = 301 \/ status r = 400) /\
  header (headers r) "X-Content-Type-Options" = Some "nosniff" /\
  header (headers r) "Content-Security-Policy" = Some "default-src 'none';" /\
  header (headers r) "Referrer-Policy" = Some "no-referrer" /\
  header (headers r) "X-Frame-Options" = Some "DENY" /\
  header (headers r) "Strict-Transport-Security" =
    Some "max-age=31536000; includeSubDomains; preload".
Proof.
  intros H. destruct (VariantFacts.hardened_secure request r H) as [St S].
  split; [exact St | exact S].
Qed.

Lemma security_headers_on_every_response_witness :
  header (("Location", "steam://connect/51.68.200.55:27015") :: Hardened.responseHeaders)
         "X-Frame-Options" = Some "DENY".
Proof.
  exact (proj1 (proj2 (proj2 (proj2 (proj2
    (@security_headers_on_every_response Demo.platform
       (Demo.get "https://steam-connect.hexane.co/?ip=51.68.200.55&port=27015")
       {| status := 301;
          headers := ("Location", "steam://connect/51.68.200.55:27015")
                       :: Hardened.responseHeaders;
          body := None |}
       eq_refl)))))).
Defined.


(** C10.  No NaN and no overflow at the range check.  A port that passed
    [/^\d+$/] never parses to NaN, and the two comparisons of the code
    decide whether the exact integer it denotes, however long, lies in
    [1, 65535].  So the hardened handler redirects only when the port is all
    digits and denotes an integer of [1, 65535]. *)
Theorem port_range_check_sound {platform : Platform}
    (request : Request) (r : Response) (u : URL) :
  Hardened.fetch request = Returns r ->
  new_URL (url request) = Some u ->
  (forall port,
      Regex.test Regex.digits port = true ->
      parseInt port <> NaN /\
      (Num.lt (parseInt port) (Int 1) || Num.gt (parseInt port) (Int 65535))%bool =
      negb ((1 <=? decimal_value port) && (decimal_value port <=? 65535))) /\
  (status r = 301 ->
   exists port,
     searchParams_get (searchParams u) "port" = Some port /\
     Regex.test Regex.digits port = true /\
     Str.forallb is_digit port = true /\
     1 <= decimal_value port <= 65535).
Proof.
  intros H Hu. split.
  - intros port T. split.
    + apply Digits.parseInt_digits_not_NaN, T.
    + apply HandlerFacts.port_tests, T.
  - rewrite (HandlerFacts.fetch_parsed request u Hu) in H. injection H as <-.
    unfold Spec.outcome, Spec.checks. cbn [Spec.first_failure].
    destruct (falsy _ || falsy _)%bool eqn:F; [discriminate |].
    destruct (searchParams_get (searchParams u) "ip") as [ip |]; [| discriminate F].
    destruct (searchParams_get (searchParams u) "port") as [port |];
      [| cbn [falsy] in F; rewrite orb_true_r in F; discriminate F].
    destruct (negb (Hardened.isValidIPv4 ip)); [discriminate |].
    destruct (Hardened.isPrivateOrReservedIP ip); [discriminate |].
    rewrite <- RegexFacts.test_digits.
    destruct (Regex.test Regex.digits port) eqn:T; cbn [negb]; [| discriminate].
    destruct (Z.leb_spec 1 (decimal_value port)); cbn [andb negb]; [| discriminate].
    destruct (Z.leb_spec (decimal_value port) 65535); cbn [negb]; [| discriminate].
    intros _. exists port.
    repeat split; auto using Digits.test_digits_forallb.
Qed.

Lemma port_range_check_sound_witness :
  exists port,
    port = "00000000000000000000000000000000000000080" /\
    Str.forallb is_digit port = true /\
    1 <= decimal_value port <= 65535.
Proof.
  destruct (proj2 (@port_range_check_sound Demo.platform
              (Demo.get "https://h.co/?ip=51.68.200.55&port=00000000000000000000000000000000000000080")
              {| status := 301;
                 headers := ("Location", "steam://connect/51.68.200.55:80")
                              :: Hardened.responseHeaders;
                 body := None |}
              {| href := "https://h.co/?ip=51.68.200.55&port=00000000000000000000000000000000000000080";
                 searchParams := [("ip", "51.68.200.55");
                                  ("port", "00000000000000000000000000000000000000080")] |}
              eq_refl eq_refl) eq_refl)
    as (port & Hp & _ & Hd & Hv).
  exists port. vm_compute in Hp. injection Hp as <-.
  split; [reflexivity | split; [exact Hd | exact Hv]].
Defined.

(* ================================================================== *)
(** * The address pattern of the minimal handler *)
(* ================================================================== *)

Module PatternFacts.
Import Regex.

Lemma Matches_Seq (r1 r2 : regex) (s : string) :
  Matches (Seq r1 r2) s <->
  exists s1 s2, s = (s1 ++ s2)%string /\ Matches r1 s1 /\ Matches r2 s2.
Proof.
  split.
  - intros H. inversion H; subst. eauto.
  - intros (s1 & s2 & -> & H1 & H2). constructor; assumption.
Qed.

Lemma Matches_Alt (r1 r2 : regex) (s : string) :
  Matches (Alt r1 r2) s <-> Matches r1 s \/ Matches r2 s.
Proof.
  split.
  - intros H. inversion H; subst; auto.
  - intros [H | H]; [apply MAltL | apply MAltR]; assumption.
Qed.

Lemma Matches_Eps (s : string) : Matches Eps s <-> s = EmptyString.
Proof.
  split.
  - intros H. inversion H. reflexivity.
  - intros ->. constructor.
Qed.

Lemma Matches_Range (lo hi : ascii) (s : string) :
  Matches (Range lo hi) s <-> exists c, s = String c EmptyString /\ in_range lo hi c = true.
Proof.
  split.
  - intros H. inversion H; subst. eauto.
  - intros (c & -> & H). constructor. assumption.
Qed.

Ltac split_matches :=
  repeat match goal with
         | H : Matches (Seq _ _) _ |- _ =>
             apply Matches_Seq in H; destruct H as (? & ? & -> & ? & ?)
         | H : Matches (Alt _ _) _ |- _ => apply Matches_Alt in H; destruct H as [H | H]
         | H : Matches (Opt _) _ |- _ => unfold Opt in H
         | H : Matches (Chr _) _ |- _ => unfold Chr in H
         | H : Matches Eps _ |- _ => apply Matches_Eps in H; subst
         | H : Matches (Range _ _) _ |- _ =>
             apply Matches_Range in H; destruct H as (? & -> & H)
         end.

(** The characters of the ranges of the pattern, one by one. *)
Lemma range_0_1 (c : ascii) :
  in_range "0" "1" c = true -> (c = "0" \/ c = "1")%char.
Proof.
  destruct c as [[|] [|] [|] [|] [|] [|] [|] [|]]; intros H; try discriminate H; tauto.
Qed.

Lemma range_0_4 (c : ascii) :
  in_range "0" "4" c = true -> (c = "0" \/ c = "1" \/ c = "2" \/ c = "3" \/ c = "4")%char.
Proof.
  destruct c as [[|] [|] [|] [|] [|] [|] [|] [|]]; intros H; try discriminate H; tauto.
Qed.

Lemma range_0_5 (c : ascii) :
  in_range "0" "5" c = true ->
  (c = "0" \/ c = "1" \/ c = "2" \/ c = "3" \/ c = "4" \/ c = "5")%char.
Proof.
  destruct c as [[|] [|] [|] [|] [|] [|] [|] [|]]; intros H; try discriminate H; tauto.
Qed.

Lemma range_one (a c : ascii) : in_range a a c = true -> c = a.
Proof.
  unfold in_range. rewrite andb_true_iff, !N.leb_le. intros [H1 H2].
  rewrite <- (ascii_N_embedding c), <- (ascii_N_embedding a). f_equal. lia.
Qed.

Ltac range_cases :=
  repeat match goal with
         | H : in_range ?a ?a ?c = true |- _ => apply range_one in H; subst c
         | H : in_range "0" "1" ?c = true |- _ =>
             apply range_0_1 in H; repeat (destruct H as [H | H]; [subst c |]); try subst c
         | H : in_range "0" "4" ?c = true |- _ =>
             apply range_0_4 in H; repeat (destruct H as [H | H]; [subst c |]); try subst c
         | H : in_range "0" "5" ?c = true |- _ =>
             apply range_0_5 in H; repeat (destruct H as [H | H]; [subst c |]); try subst c
         | H : in_range "0" "9" ?c = true |- _ => Digits.digit_cases c H
         end.

Lemma octet_matches_loose (seg : string) : Matches Minimal.octet seg -> Loose.Octet seg.
Proof.
  unfold Minimal.octet. intros H. split_matches; range_cases;
    (split; [reflexivity | split; [cbn; lia | vm_compute; discriminate]]).
Qed.

Lemma loose_matches_octet (seg : string) : Loose.Octet seg -> test Minimal.octet seg = true.
Proof.
  intros (D & L & V).
  destruct seg as [| c1 [| c2 [| c3 [| c4 r]]]]; cbn [String.length] in L; try lia;
    cbn [Str.forallb] in D;
    repeat match goal with
           | H : (_ && _)%bool = true |- _ => apply andb_true_iff in H; destruct H
           end;
    repeat match goal with
           | H : is_digit ?c = true |- _ => Digits.digit_cases c H
           end;
    first [reflexivity | exfalso; vm_compute in V; apply V; reflexivity].
Qed.

(** The pattern of one segment: one to three digits, up to 255. *)
Lemma test_octet (seg : string) : test Minimal.octet seg = true <-> Loose.Octet seg.
Proof.
  split.
  - intros H. apply octet_matches_loose, RegexFacts.test_Matches, H.
  - apply loose_matches_octet.
Qed.

Lemma Matches_dot (s : string) : Matches (Chr ".") s <-> s = ".".
Proof.
  unfold Chr. rewrite Matches_Range. split.
  - intros (c & -> & H).
    destruct c as [[|] [|] [|] [|] [|] [|] [|] [|]]; try discriminate H. reflexivity.
  - intros ->. exists "."%char. split; reflexivity.
Qed.

Lemma Loose_free_of_dot (seg : string) : Loose.Octet seg -> Spec.free_of "." seg.
Proof.
  intros (D & _). apply SplitFacts.digits_free_of_dot, D.
Qed.

(** [ipPattern.test(s)]: four segments of the loose kind, split by dots. *)
Lemma test_ipPattern (s : string) :
  test Minimal.ipPattern s = true <-> Loose.DottedQuad s.
Proof.
  rewrite RegexFacts.test_Matches. unfold Minimal.ipPattern, Loose.DottedQuad.
  split.
  - intros H.
    repeat match goal with
           | H : Matches (Seq _ _) _ |- _ =>
               apply Matches_Seq in H; destruct H as (? & ? & -> & ? & ?)
           | H : Matches (Chr ".") _ |- _ => apply Matches_dot in H; subst
           | H : Matches Minimal.octet _ |- _ =>
               apply RegexFacts.test_Matches, test_octet in H
           end.
    match goal with
    | Ha : Loose.Octet ?a, Hb : Loose.Octet ?b, Hc : Loose.Octet ?c, Hd : Loose.Octet ?d
      |- context [(?a ++ "." ++ ?b ++ "." ++ ?c ++ "." ++ ?d)%string] =>
        exists a, b, c, d; split; [| auto];
        cbn [append];
        rewrite !SplitFacts.split_app by (apply Loose_free_of_dot; assumption);
        rewrite SplitFacts.split_free_one by (apply Loose_free_of_dot; assumption);
        reflexivity
    end.
  - intros (a & b & c & d & E & Ha & Hb & Hc & Hd).
    rewrite <- (SplitFacts.join_split "." s), E.
    change (Str.join "." [a; b; c; d])
      with (a ++ ("." ++ (b ++ ("." ++ (c ++ ("." ++ d))))))%string.
    repeat first [ apply MSeq
                 | apply Matches_dot; reflexivity
                 | apply RegexFacts.test_Matches, test_octet; assumption ].
Qed.

End PatternFacts.

(* ================================================================== *)
(** * Segments, strict and loose *)
(* ================================================================== *)

Module OctetFacts.

(** A digit string with a first digit other than zero and more than three
    digits denotes at least 1000. *)
Lemma four_digits_large (c1 c2 c3 c4 : ascii) (r : string) :
  Str.forallb is_digit (String c1 (String c2 (String c3 (String c4 r)))) = true ->
  c1 <> "0"%char ->
  1000 <= decimal_value (String c1 (String c2 (String c3 (String c4 r)))).
Proof.
  cbn [Str.forallb]. rewrite !andb_true_iff. intros (D1 & D2 & D3 & D4 & Dr) Hz.
  unfold decimal_value. cbn [decimal_acc].
  pose proof (Digits.digit_value_range c2 D2). pose proof (Digits.digit_value_range c3 D3).
  pose proof (Digits.digit_value_range c4 D4).
  assert (1 <= digit_value c1).
  { Digits.digit_cases c1 D1; try (vm_compute; discriminate). contradiction Hz. reflexivity. }
  set (acc := 10 * (10 * (10 * (10 * 0 + digit_value c1) + digit_value c2) + digit_value c3)
              + digit_value c4).
  assert (1000 <= acc) by (unfold acc; lia).
  pose proof (Digits.decimal_acc_ge r acc Dr ltac:(lia)). lia.
Qed.

(** The segments of the Address Validator are the loose segments without a
    superfluous leading zero. *)
Lemma Octet_Loose (seg : string) :
  Spec.Octet seg <->
  Loose.Octet seg /\ (Str.startsWith seg "0" = true -> seg = "0").
Proof.
  split.
  - intros (Hne & D & V & Z). split; [| exact Z]. split; [exact D |]. split; [| lia].
    destruct seg as [| c1 [| c2 [| c3 [| c4 r]]]]; cbn [String.length]; try lia;
      [contradiction |].
    exfalso.
    assert (Hz : c1 <> "0"%char).
    { intros ->. specialize (Z eq_refl). discriminate Z. }
    pose proof (four_digits_large c1 c2 c3 c4 r D Hz). lia.
  - intros ((D & L & V) & Z). split; [| split; [exact D | split; [| exact Z]]].
    + intros ->. cbn in L. lia.
    + pose proof (Digits.decimal_value_nonneg seg D). lia.
Qed.

(** A segment of the Address Validator is the canonical text of its value. *)
Lemma Octet_canonical (seg : string) : Spec.Octet seg -> canonical_decimal seg = seg.
Proof.
  intros (Hne & D & V & Z). unfold canonical_decimal.
  destruct seg as [| c r]; [contradiction |].
  destruct (Ascii.eqb_spec c "0") as [-> | Hc].
  - rewrite (Z eq_refl). reflexivity.
  - replace (strip_zeros (String c r)) with (String c r); [reflexivity |].
    destruct c as [[|] [|] [|] [|] [|] [|] [|] [|]]; try reflexivity.
    contradiction Hc. reflexivity.
Qed.

(** Two segments of the same value are the same text. *)
Lemma Octet_inj (s t : string) :
  Spec.Octet s -> Spec.Octet t -> decimal_value s = decimal_value t -> s = t.
Proof.
  intros Hs Ht E.
  rewrite <- (Octet_canonical s Hs), <- (Octet_canonical t Ht).
  destruct Hs as (_ & Ds & _), Ht as (_ & Dt & _).
  rewrite <- (Digits.toString_decimal_value s Ds), <- (Digits.toString_decimal_value t Dt), E.
  reflexivity.
Qed.

Lemma quad_inj (a b c d a' b' c' d' : Z) :
  0 <= a <= 255 -> 0 <= b <= 255 -> 0 <= c <= 255 -> 0 <= d <= 255 ->
  0 <= a' <= 255 -> 0 <= b' <= 255 -> 0 <= c' <= 255 -> 0 <= d' <= 255 ->
  Spec.quad a b c d = Spec.quad a' b' c' d' ->
  a = a' /\ b = b' /\ c = c' /\ d = d'.
Proof.
  unfold Spec.quad.
  change (2 ^ 24) with 16777216. change (2 ^ 16) with 65536. change (2 ^ 8) with 256.
  lia.
Qed.

(** The characters of a valid address are digits and dots. *)
Lemma DottedQuad_chars (s : string) :
  Spec.DottedQuad s ->
  Str.forallb (fun c => (is_digit c || Ascii.eqb c ".")%bool) s = true.
Proof.
  intros (a & b & c & d & E & (_ & Da & _) & (_ & Db & _) & (_ & Dc & _) & (_ & Dd & _)).
  rewrite <- (SplitFacts.join_split "." s), E.
  assert (App : forall x y p, Str.forallb p x = true -> Str.forallb p y = true ->
                              Str.forallb p (x ++ y) = true).
  { induction x as [| ch x IH]; cbn [append Str.forallb]; intros y p Hx Hy; [exact Hy |].
    apply andb_true_iff in Hx as [H1 H2]. rewrite H1, (IH y p H2 Hy). reflexivity. }
  assert (Dig : forall x, Str.forallb is_digit x = true ->
                          Str.forallb (fun c => (is_digit c || Ascii.eqb c ".")%bool) x = true).
  { induction x as [| ch x IH]; cbn [Str.forallb]; intros H; [reflexivity |].
    apply andb_true_iff in H as [H1 H2]. rewrite H1, (IH H2). reflexivity. }
  change (Str.join "." [a; b; c; d])
    with (a ++ String "." (b ++ String "." (c ++ String "." d)))%string.
  repeat first [ apply App | apply Dig; assumption
               | cbn [Str.forallb]; apply andb_true_iff; split; [reflexivity |] ].
Qed.

End OctetFacts.

(* ================================================================== *)
(** * Masks as divisions *)
(* ================================================================== *)

Module MaskFacts.
Import Hardened.

(** Masking with the mask of a prefix clears the bits below the prefix. *)
Lemma land_umask (x p : Z) :
  0 <= x < 2 ^ 32 -> 0 <= p <= 32 ->
  Z.land x (Spec.umask p) = x / 2 ^ (32 - p) * 2 ^ (32 - p).
Proof.
  intros Hx Hp. rewrite (RangeClassifier.umask_shift p Hp).
  rewrite <- Z.shiftr_div_pow2, <- Z.shiftl_mul_pow2 by lia.
  apply Z.bits_inj'. intros i Hi.
  rewrite Z.land_spec, !Z.shiftl_spec by lia.
  destruct (Z.ltb_spec i (32 - p)) as [L | L].
  - rewrite !(Z.testbit_neg_r _ (i - (32 - p))) by lia. apply andb_false_r.
  - rewrite Z.shiftr_spec by lia. replace (i - (32 - p) + (32 - p)) with i by lia.
    destruct (Z.ltb_spec i 32) as [L32 | L32].
    + rewrite Z.ones_spec_low by lia. apply andb_true_r.
    + rewrite Z.ones_spec_high by lia. rewrite andb_false_r.
      symmetry. apply Z.bits_above_log2; [lia |].
      destruct (Z.eq_dec x 0) as [-> | Hn]; [simpl; lia |].
      assert (2 ^ 32 <= 2 ^ i) by (apply Z.pow_le_mono_r; lia).
      apply Z.log2_lt_pow2; lia.
Qed.

(** Two addresses are in the same block exactly when they agree above the
    bits the prefix leaves free. *)
Lemma in_block_div (x base p : Z) :
  0 <= x < 2 ^ 32 -> 0 <= base < 2 ^ 32 -> 0 <= p <= 32 ->
  Spec.in_block x (base, p) = (x / 2 ^ (32 - p) =? base / 2 ^ (32 - p)).
Proof.
  intros Hx Hb Hp. unfold Spec.in_block. cbn [fst snd].
  rewrite !land_umask by assumption.
  assert (0 < 2 ^ (32 - p)) by (apply Z.pow_pos_nonneg; lia).
  destruct (Z.eqb_spec (x / 2 ^ (32 - p)) (base / 2 ^ (32 - p))) as [E | E].
  - rewrite E. apply Z.eqb_refl.
  - apply Z.eqb_neq. intros H'. apply E. nia.
Qed.

(** The quotients of an address by the powers of 256. *)
Lemma quad_div (a b c d : Z) :
  0 <= a <= 255 -> 0 <= b <= 255 -> 0 <= c <= 255 -> 0 <= d <= 255 ->
  Spec.quad a b c d / 2 ^ 24 = a /\
  Spec.quad a b c d / 2 ^ 16 = a * 256 + b /\
  Spec.quad a b c d / 2 ^ 8 = a * 65536 + b * 256 + c /\
  Spec.quad a b c d / 2 ^ 20 = a * 16 + b / 16.
Proof.
  intros Ha Hb Hc Hd. unfold Spec.quad.
  change (2 ^ 24) with 16777216. change (2 ^ 16) with 65536. change (2 ^ 8) with 256.
  change (2 ^ 20) with 1048576.
  repeat split.
  - symmetry. apply (Z.div_unique _ _ _ (b * 65536 + c * 256 + d)); lia.
  - symmetry. apply (Z.div_unique _ _ _ (c * 256 + d)); lia.
  - symmetry. apply (Z.div_unique _ _ _ d); lia.
  - pose proof (Z.div_mod b 16 ltac:(lia)). pose proof (Z.mod_pos_bound b 16 ltac:(lia)).
    symmetry. apply (Z.div_unique _ _ _ ((b mod 16) * 65536 + c * 256 + d)); lia.
Qed.

(** The conditions of the blocks on the quotients, as conditions on the
    octets. *)
Lemma two_octets (a b x y : Z) :
  0 <= a <= 255 -> 0 <= b <= 255 -> 0 <= x <= 255 -> 0 <= y <= 255 ->
  a * 256 + b = x * 256 + y <-> a = x /\ b = y.
Proof. lia. Qed.

Lemma three_octets (a b c x y z : Z) :
  0 <= a <= 255 -> 0 <= b <= 255 -> 0 <= c <= 255 ->
  0 <= x <= 255 -> 0 <= y <= 255 -> 0 <= z <= 255 ->
  a * 65536 + b * 256 + c = x * 65536 + y * 256 + z <-> a = x /\ b = y /\ c = z.
Proof. lia. Qed.

Lemma twelve_bits (a b : Z) :
  0 <= a <= 255 -> 0 <= b <= 255 ->
  a * 16 + b / 16 = 2753 <-> a = 172 /\ 16 <= b <= 31.
Proof.
  intros Ha Hb.
  assert (Hq : 0 <= b / 16 < 16).
  { split; [apply Z.div_pos; lia | apply Z.div_lt_upper_bound; lia]. }
  split.
  - intros H. assert (a = 172) by lia. assert (Hd : b / 16 = 1) by lia.
    split; [assumption |].
    pose proof (Z.div_mod b 16 ltac:(lia)) as M.
    pose proof (Z.mod_pos_bound b 16 ltac:(lia)) as N.
    rewrite Hd in M. lia.
  - intros [-> Hr]. replace (b / 16) with 1; [reflexivity |].
    apply (Z.div_unique b 16 1 (b - 16)); lia.
Qed.

Lemma four_octets (a b c d : Z) :
  0 <= a <= 255 -> 0 <= b <= 255 -> 0 <= c <= 255 -> 0 <= d <= 255 ->
  Spec.quad a b c d = 4294967295 <-> a = 255 /\ b = 255 /\ c = 255 /\ d = 255.
Proof.
  intros Ha Hb Hc Hd. split.
  - intros H. assert (O : 0 <= 255 <= 255) by lia.
    apply (OctetFacts.quad_inj a b c d 255 255 255 255 Ha Hb Hc Hd O O O O).
    rewrite H. reflexivity.
  - intros (-> & -> & -> & ->). reflexivity.
Qed.

(** Membership in one block of the table, on the quotient of the address. *)
Lemma in_block_quotient (x base p v : Z) :
  0 <= x < 2 ^ 32 -> 0 <= base < 2 ^ 32 -> 0 <= p <= 32 ->
  base / 2 ^ (32 - p) = v ->
  Spec.in_block x (base, p) = (x / 2 ^ (32 - p) =? v).
Proof.
  intros Hx Hbase Hp <-. apply in_block_div; assumption.
Qed.

(** The eight blocks, octet by octet. *)
Lemma reserved_octets_iff (a b c d : Z) :
  0 <= a <= 255 -> 0 <= b <= 255 -> 0 <= c <= 255 -> 0 <= d <= 255 ->
  Spec.reserved (Spec.quad a b c d) = true <-> reserved_octets a b c d.
Proof.
  intros Ha Hb Hc Hd.
  pose proof (RangeClassifier.quad_range a b c d Ha Hb Hc Hd) as R.
  pose proof (quad_div a b c d Ha Hb Hc Hd) as (Q24 & Q16 & Q8 & Q20).
  assert (P8 : 0 <= 8 <= 32) by lia. assert (P12 : 0 <= 12 <= 32) by lia.
  assert (P16 : 0 <= 16 <= 32) by lia. assert (P24 : 0 <= 24 <= 32) by lia.
  assert (P32 : 0 <= 32 <= 32) by lia.
  assert (Small : forall w x y z, 0 <= w <= 255 -> 0 <= x <= 255 -> 0 <= y <= 255 ->
                                  0 <= z <= 255 -> 0 <= Spec.quad w x y z < 2 ^ 32)
    by (intros; apply RangeClassifier.quad_range; assumption).
  assert (O0 : 0 <= 0 <= 255) by lia. assert (O10 : 0 <= 10 <= 255) by lia.
  assert (O16 : 0 <= 16 <= 255) by lia. assert (O127 : 0 <= 127 <= 255) by lia.
  assert (O168 : 0 <= 168 <= 255) by lia. assert (O169 : 0 <= 169 <= 255) by lia.
  assert (O172 : 0 <= 172 <= 255) by lia. assert (O192 : 0 <= 192 <= 255) by lia.
  assert (O254 : 0 <= 254 <= 255) by lia. assert (O255 : 0 <= 255 <= 255) by lia.
  unfold Spec.reserved, Spec.blocks. cbn [existsb].
  rewrite (in_block_quotient _ (Spec.quad 0 0 0 0) 8 0 R (Small _ _ _ _ O0 O0 O0 O0) P8 eq_refl).
  rewrite (in_block_quotient _ (Spec.quad 10 0 0 0) 8 10 R
             (Small _ _ _ _ O10 O0 O0 O0) P8 eq_refl).
  rewrite (in_block_quotient _ (Spec.quad 127 0 0 0) 8 127 R
             (Small _ _ _ _ O127 O0 O0 O0) P8 eq_refl).
  rewrite (in_block_quotient _ (Spec.quad 169 254 0 0) 16 (169 * 256 + 254) R
             (Small _ _ _ _ O169 O254 O0 O0) P16 eq_refl).
  rewrite (in_block_quotient _ (Spec.quad 172 16 0 0) 12 2753 R
             (Small _ _ _ _ O172 O16 O0 O0) P12 eq_refl).
  rewrite (in_block_quotient _ (Spec.quad 192 0 0 0) 24 (192 * 65536 + 0 * 256 + 0) R
             (Small _ _ _ _ O192 O0 O0 O0) P24 eq_refl).
  rewrite (in_block_quotient _ (Spec.quad 192 168 0 0) 16 (192 * 256 + 168) R
             (Small _ _ _ _ O192 O168 O0 O0) P16 eq_refl).
  rewrite (in_block_quotient _ (Spec.quad 255 255 255 255) 32 4294967295 R
             (Small _ _ _ _ O255 O255 O255 O255) P32 eq_refl).
  change (32 - 8) with 24. change (32 - 16) with 16. change (32 - 12) with 20.
  change (32 - 24) with 8. change (32 - 32) with 0.
  rewrite Q24, Q16, Q8, Q20. change (2 ^ 0) with 1. rewrite Z.div_1_r.
  rewrite orb_false_r, !orb_true_iff, !Z.eqb_eq.
  rewrite (two_octets a b 169 254 Ha Hb O169 O254).
  rewrite (two_octets a b 192 168 Ha Hb O192 O168).
  rewrite (three_octets a b c 192 0 0 Ha Hb Hc O192 O0 O0).
  rewrite (twelve_bits a b Ha Hb).
  rewrite (four_octets a b c d Ha Hb Hc Hd).
  unfold reserved_octets. tauto.
Qed.

End MaskFacts.

(* ================================================================== *)
(** * Addresses as integers, blocks as texts *)
(* ================================================================== *)

Module CidrFacts.
Import Hardened.

(** What a valid address is made of. *)
Lemma valid_address (s : string) :
  isValidIPv4 s = true ->
  exists a b c d,
    Str.split "." s = [a; b; c; d] /\
    Spec.Octet a /\ Spec.Octet b /\ Spec.Octet c /\ Spec.Octet d /\
    ipv4ToInt s =
      Int (Spec.quad (decimal_value a) (decimal_value b) (decimal_value c) (decimal_value d)) /\
    0 <= Spec.quad (decimal_value a) (decimal_value b) (decimal_value c) (decimal_value d)
      < 2 ^ 32.
Proof.
  intros V. apply AddressValidator.isValidIPv4_DottedQuad in V.
  destruct V as (a & b & c & d & E & Ha & Hb & Hc & Hd).
  exists a, b, c, d.
  pose proof Ha as (_ & _ & Va & _). pose proof Hb as (_ & _ & Vb & _).
  pose proof Hc as (_ & _ & Vc & _). pose proof Hd as (_ & _ & Vd & _).
  repeat (split; [assumption |]). split.
  - apply RangeClassifier.ipv4ToInt_quad; assumption.
  - apply RangeClassifier.quad_range; assumption.
Qed.

(** Valid addresses with the same integer are the same text. *)
Lemma ipv4ToInt_inj (s t : string) :
  isValidIPv4 s = true -> isValidIPv4 t = true -> ipv4ToInt s = ipv4ToInt t -> s = t.
Proof.
  intros Vs Vt E.
  destruct (valid_address s Vs) as (a & b & c & d & Es & Ha & Hb & Hc & Hd & Is & _).
  destruct (valid_address t Vt) as (a' & b' & c' & d' & Et & Ha' & Hb' & Hc' & Hd' & It & _).
  rewrite Is, It in E. injection E as E.
  apply OctetFacts.quad_inj in E;
    try match goal with
        | H : Spec.Octet ?x |- _ <= decimal_value ?x <= _ =>
            destruct H as (_ & _ & ? & _); assumption
        end.
  destruct E as (Ea & Eb & Ec & Ed).
  apply OctetFacts.Octet_inj in Ea, Eb, Ec, Ed; try assumption. subst.
  rewrite <- (SplitFacts.join_split "." s), <- (SplitFacts.join_split "." t), Es, Et.
  reflexivity.
Qed.

Lemma forallb_weaken (p q : ascii -> bool) (s : string) :
  (forall c, p c = true -> q c = true) ->
  Str.forallb p s = true -> Str.forallb q s = true.
Proof.
  intros W. induction s as [| c s IH]; cbn [Str.forallb]; intros H; [reflexivity |].
  apply andb_true_iff in H as [H1 H2]. rewrite (W c H1), (IH H2). reflexivity.
Qed.

Lemma valid_free_of_slash (s : string) : isValidIPv4 s = true -> Spec.free_of "/" s.
Proof.
  intros V. apply AddressValidator.isValidIPv4_DottedQuad, OctetFacts.DottedQuad_chars in V.
  revert V. apply forallb_weaken. intros c H.
  destruct c as [[|] [|] [|] [|] [|] [|] [|] [|]]; try discriminate H; reflexivity.
Qed.

Lemma digits_free_of_slash (s : string) :
  Str.forallb is_digit s = true -> Spec.free_of "/" s.
Proof.
  apply forallb_weaken. intros c H.
  destruct c as [[|] [|] [|] [|] [|] [|] [|] [|]]; try discriminate H; reflexivity.
Qed.

Lemma Number_prefix (pstr : string) :
  pstr <> EmptyString -> Str.forallb is_digit pstr = true -> decimal_value pstr <= 32 ->
  Number pstr = Int (decimal_value pstr) /\ 0 <= decimal_value pstr <= 32.
Proof.
  intros Hne D V.
  pose proof (Digits.decimal_value_nonneg pstr D) as N.
  assert (T : Regex.test Regex.digits pstr = true).
  { rewrite RegexFacts.test_digits, D. destruct pstr; [contradiction | reflexivity]. }
  rewrite (Digits.Number_digits pstr T).
  split; [| lia]. apply NumFacts.of_Z_small. change (2 ^ 53) with 9007199254740992. lia.
Qed.

(** [ipInCidr] on a block written as a valid address, a slash and a prefix
    length from 0 to 32. *)
Lemma ipInCidr_text (ip range pstr : string) (x base : Z) :
  isValidIPv4 range = true ->
  pstr <> EmptyString -> Str.forallb is_digit pstr = true -> decimal_value pstr <= 32 ->
  ipv4ToInt ip = Int x -> 0 <= x < 2 ^ 32 ->
  ipv4ToInt range = Int base -> 0 <= base < 2 ^ 32 ->
  ipInCidr ip (range ++ "/" ++ pstr) =
  (x / 2 ^ (32 - decimal_value pstr) =? base / 2 ^ (32 - decimal_value pstr)).
Proof.
  intros Vr Hne D V Ex Hx Eb Hb.
  destruct (Number_prefix pstr Hne D V) as [Np Rp].
  rewrite <- (MaskFacts.in_block_div x base (decimal_value pstr) Hx Hb Rp).
  apply (RangeClassifier.ipInCidr_in_block ip _ range pstr); try assumption.
  cbn [append].
  rewrite SplitFacts.split_app by (apply valid_free_of_slash; assumption).
  rewrite SplitFacts.split_free_one by (apply digits_free_of_slash; assumption).
  reflexivity.
Qed.

(** [ipInCidr] on a block written without a slash: the prefix length is
    undefined, the mask is all ones, and the whole addresses are compared. *)
Lemma ipInCidr_no_slash (ip range : string) (x base : Z) :
  Spec.free_of "/" range ->
  ipv4ToInt ip = Int x -> 0 <= x < 2 ^ 32 ->
  ipv4ToInt range = Int base -> 0 <= base < 2 ^ 32 ->
  ipInCidr ip range = (x =? base).
Proof.
  intros F Ex Hx Eb Hb. unfold ipInCidr.
  rewrite (SplitFacts.split_free_one "/" range F). cbn [nth nth_error].
  rewrite Ex, Eb.
  change (cidr_mask NaN) with (Int (-1)).
  rewrite RangeClassifier.and_eqb.
  change (-1 mod 2 ^ 32) with (Z.ones 32).
  rewrite !Z.land_ones, !Z.mod_mod, !Z.mod_small by (try assumption; lia).
  reflexivity.
Qed.

End CidrFacts.

(* ================================================================== *)
(** * What [parseInt] reads of a port *)
(* ================================================================== *)

Module ParseFacts.

Lemma of_Z_nonpos (z : Z) : z <= 0 -> Num.lt (Num.of_Z z) (Int 1) = true.
Proof.
  intros H. unfold Num.of_Z.
  destruct (Z.leb_spec (2 ^ 1024) (Num.round53 (Z.abs z))) as [B | B].
  - destruct (Z.ltb_spec z 0); [reflexivity |].
    exfalso. replace z with 0 in B by lia. vm_compute in B. apply B. reflexivity.
  - cbn [Num.lt]. apply Z.ltb_lt.
    assert (0 <= Num.round53 (Z.abs z)).
    { destruct (Z.lt_ge_cases (Z.abs z) (2 ^ 53)).
      - rewrite NumFacts.round53_small by lia. lia.
      - pose proof (NumFacts.round53_large _ H0).
        assert (0 < 2 ^ 53) by (apply Z.pow_pos_nonneg; lia). lia. }
    nia.
Qed.

(** A string is the white space [parseInt] skips, then the rest. *)
Lemma skip_whitespace_split (s : string) :
  exists ws,
    s = (ws ++ skip_whitespace s)%string /\
    Str.forallb is_whitespace ws = true /\
    match skip_whitespace s with
    | EmptyString => True
    | String c _ => is_whitespace c = false
    end.
Proof.
  induction s as [| c s (ws & E & W & N)]; cbn [skip_whitespace].
  - exists EmptyString. repeat split.
  - destruct (is_whitespace c) eqn:C.
    + exists (String c ws). cbn [append Str.forallb]. rewrite <- E, C, W. repeat split.
      exact N.
    + exists EmptyString. repeat split. exact C.
Qed.

Lemma skip_whitespace_app (ws x : string) :
  Str.forallb is_whitespace ws = true ->
  match x with EmptyString => True | String c _ => is_whitespace c = false end ->
  skip_whitespace (ws ++ x) = x.
Proof.
  intros W N. induction ws as [| c ws IH]; cbn [append].
  - destruct x as [| c r]; [reflexivity |]. cbn [skip_whitespace]. rewrite N. reflexivity.
  - cbn [Str.forallb] in W. apply andb_true_iff in W as [W1 W2].
    cbn [skip_whitespace]. rewrite W1. apply IH, W2.
Qed.

(** A string is its longest run of leading digits, then a text that does not
    start with a digit. *)
Lemma digit_prefix_split (s : string) :
  exists rest,
    s = (digit_prefix s ++ rest)%string /\
    Str.forallb is_digit (digit_prefix s) = true /\
    Loose.starts_with_digit rest = false.
Proof.
  induction s as [| c s (rest & E & D & N)]; cbn [digit_prefix].
  - exists EmptyString. repeat split.
  - destruct (is_digit c) eqn:C.
    + exists rest. cbn [append Str.forallb]. rewrite <- E, C, D. repeat split. exact N.
    + exists (String c s). repeat split. exact C.
Qed.

Lemma digit_prefix_app (ds rest : string) :
  Str.forallb is_digit ds = true -> Loose.starts_with_digit rest = false ->
  digit_prefix (ds ++ rest) = ds.
Proof.
  intros D N. induction ds as [| c ds IH]; cbn [append].
  - destruct rest as [| c r]; [reflexivity |]. cbn [digit_prefix].
    cbn [Loose.starts_with_digit] in N. rewrite N. reflexivity.
  - cbn [Str.forallb] in D. apply andb_true_iff in D as [D1 D2].
    cbn [digit_prefix]. rewrite D1, (IH D2). reflexivity.
Qed.

(** The three ways [parseInt] goes on after the white space. *)
Lemma parseInt_minus (s r : string) :
  skip_whitespace s = String "-" r ->
  parseInt s =
  match digit_prefix r with
  | EmptyString => NaN
  | String c z => Num.of_Z (- decimal_value (String c z))
  end.
Proof.
  intros E. unfold parseInt. rewrite E.
  destruct (digit_prefix r); [reflexivity |]. f_equal; lia.
Qed.

Lemma parseInt_plus (s r : string) :
  skip_whitespace s = String "+" r ->
  parseInt s =
  match digit_prefix r with
  | EmptyString => NaN
  | String c z => Num.of_Z (decimal_value (String c z))
  end.
Proof.
  intros E. unfold parseInt. rewrite E.
  destruct (digit_prefix r); [reflexivity |]. f_equal; lia.
Qed.

Lemma parseInt_unsigned (s : string) :
  (forall r, skip_whitespace s <> String "-" r) ->
  (forall r, skip_whitespace s <> String "+" r) ->
  parseInt s =
  match digit_prefix (skip_whitespace s) with
  | EmptyString => NaN
  | String c z => Num.of_Z (decimal_value (String c z))
  end.
Proof.
  intros Hm Hp. unfold parseInt.
  destruct (skip_whitespace s) as [| c r] eqn:E.
  - reflexivity.
  - destruct (Ascii.eqb_spec c "-") as [-> | Cm]; [contradiction (Hm r); reflexivity |].
    destruct (Ascii.eqb_spec c "+") as [-> | Cp]; [contradiction (Hp r); reflexivity |].
    destruct c as [[|] [|] [|] [|] [|] [|] [|] [|]];
      try solve [exfalso; apply Cm; reflexivity];
      try solve [exfalso; apply Cp; reflexivity];
      (destruct (digit_prefix _); [reflexivity | f_equal; lia]).
Qed.

(** The port test of the minimal handler passes exactly on the texts that
    lead with an integer of [1, 65535]. *)
Lemma minimal_port_test (port : string) :
  (Num.isNaN (parseInt port) || Num.lt (parseInt port) (Int 1)
   || Num.gt (parseInt port) (Int 65535))%bool = false <->
  exists n, Loose.LeadingPort port n /\ 1 <= n <= 65535.
Proof.
  assert (Pos : forall ds, ds <> EmptyString -> Str.forallb is_digit ds = true ->
            ((Num.isNaN (Num.of_Z (decimal_value ds)) || Num.lt (Num.of_Z (decimal_value ds)) (Int 1)
              || Num.gt (Num.of_Z (decimal_value ds)) (Int 65535))%bool = false <->
             1 <= decimal_value ds <= 65535)).
  { intros ds Hne D. pose proof (Digits.decimal_value_nonneg ds D) as N.
    rewrite NumFacts.lt_of_Z, NumFacts.gt_of_Z by (try split; try lia; reflexivity).
    assert (Num.isNaN (Num.of_Z (decimal_value ds)) = false) as ->.
    { pose proof (NumFacts.of_Z_not_NaN (decimal_value ds)).
      destruct (Num.of_Z (decimal_value ds)); try reflexivity. contradiction. }
    cbn [orb].
    destruct (Z.ltb_spec (decimal_value ds) 1), (Z.ltb_spec 65535 (decimal_value ds));
      cbn [orb]; split; intros; try discriminate; try lia; reflexivity. }
  destruct (skip_whitespace_split port) as (ws & E & W & N).
  destruct (skip_whitespace port) as [| c r] eqn:S.
  { (* nothing but white space *)
    rewrite (parseInt_unsigned port) by (rewrite S; discriminate). rewrite S.
    split; [discriminate |].
    intros (n & (ws' & sg & ds & rest & E' & W' & Sg & Hne & D & R & _) & _). exfalso.
    assert (X : skip_whitespace port = (sg ++ ds ++ rest)%string).
    { rewrite E'. apply skip_whitespace_app; [exact W' |].
      destruct ds as [| d ds']; [contradiction |].
      cbn [Str.forallb] in D. apply andb_true_iff in D as [D1 _].
      destruct Sg as [-> | ->]; cbn [append];
        [apply Digits.digit_not_whitespace, D1 | reflexivity]. }
    rewrite S in X. destruct Sg as [-> | ->]; [| discriminate X].
    destruct ds; [contradiction | discriminate X]. }
  assert (Back : forall n, Loose.LeadingPort port n ->
            exists sg ds rest, String c r = (sg ++ ds ++ rest)%string /\
              (sg = EmptyString \/ sg = "+") /\ ds <> EmptyString /\
              Str.forallb is_digit ds = true /\ Loose.starts_with_digit rest = false /\
              n = decimal_value ds).
  { intros n (ws' & sg & ds & rest & E' & W' & Sg & Hne & D & R & Hn).
    exists sg, ds, rest. repeat (split; [| try assumption]); try assumption.
    rewrite <- S, E'. apply skip_whitespace_app; [exact W' |].
    destruct ds as [| d ds']; [contradiction |].
    cbn [Str.forallb] in D. apply andb_true_iff in D as [D1 _].
    destruct Sg as [-> | ->]; cbn [append];
      [apply Digits.digit_not_whitespace, D1 | reflexivity]. }
  destruct (Ascii.eqb_spec c "-") as [-> | Cm].
  { (* a minus sign: never accepted *)
    rewrite (parseInt_minus port r S).
    split.
    - destruct (digit_prefix r) as [| d z] eqn:P; [discriminate |].
      destruct (digit_prefix_split r) as (rest & _ & D & _). rewrite P in D.
      pose proof (Digits.decimal_value_nonneg _ D).
      rewrite of_Z_nonpos by lia. rewrite orb_true_r. discriminate.
    - intros (n & L & _). exfalso.
      destruct (Back n L) as (sg & ds & rest & X & Sg & Hne & D & _).
      destruct ds as [| d ds']; [contradiction |].
      cbn [Str.forallb] in D. apply andb_true_iff in D as [D1 _].
      destruct Sg as [-> | ->]; cbn [append] in X; [| discriminate X].
      injection X as <- _. discriminate D1. }
  destruct (Ascii.eqb_spec c "+") as [-> | Cp].
  { (* a plus sign, then the digits *)
    rewrite (parseInt_plus port r S).
    destruct (digit_prefix_split r) as (rest & Er & D & R).
    split.
    - destruct (digit_prefix r) as [| d z] eqn:P; [discriminate |].
      intros H. apply Pos in H; [| discriminate | exact D].
      exists (decimal_value (String d z)). split; [| exact H].
      exists ws, "+", (String d z), rest. rewrite E, Er.
      repeat split; auto. discriminate.
    - intros (n & L & Hn).
      destruct (Back n L) as (sg & ds & rest' & X & Sg & Hne & D' & R' & ->).
      destruct Sg as [-> | ->]; cbn [append] in X.
      + destruct ds as [| d ds']; [contradiction |].
        cbn [Str.forallb] in D'. apply andb_true_iff in D' as [D1 _].
        injection X as <- _. discriminate D1.
      + injection X as ->. rewrite (digit_prefix_app ds rest' D' R').
        destruct ds as [| d ds']; [contradiction |].
        apply Pos; [discriminate | exact D' | exact Hn]. }
  (* no sign *)
  rewrite (parseInt_unsigned port)
    by (rewrite S; intros r0 X; injection X as -> _; auto).
  rewrite S.
  destruct (digit_prefix_split (String c r)) as (rest & Er & D & R).
  split.
  - destruct (digit_prefix (String c r)) as [| d z] eqn:P; [discriminate |].
    intros H. apply Pos in H; [| discriminate | exact D].
    exists (decimal_value (String d z)). split; [| exact H].
    exists ws, EmptyString, (String d z), rest. rewrite E, Er.
    repeat split; auto. discriminate.
  - intros (n & L & Hn).
    destruct (Back n L) as (sg & ds & rest' & X & Sg & Hne & D' & R' & ->).
    destruct Sg as [-> | ->]; cbn [append] in X.
    + rewrite X, (digit_prefix_app ds rest' D' R').
      destruct ds as [| d ds']; [contradiction |].
      apply Pos; [discriminate | exact D' | exact Hn].
    + injection X as -> _. contradiction Cp. reflexivity.
Qed.

End ParseFacts.

(* ================================================================== *)
(** * The minimal handler, case by case *)
(* ================================================================== *)

Module MinimalFacts.

Section Table.
Context {platform : Platform}.

(** The response of the minimal handler once the URL is parsed and both
    parameters are present. *)
Lemma fetch_present (request : Request) (u : URL) (ip port : string) :
  new_URL (url request) = Some u ->
  searchParams_get (searchParams u) "ip" = Some ip ->
  searchParams_get (searchParams u) "port" = Some port ->
  ip <> EmptyString -> port <> EmptyString ->
  Minimal.fetch request =
  if negb (Regex.test Minimal.ipPattern ip) then
    Returns (Minimal.text_response 400 "Error: 'ip' parameter must be a valid IPv4 address.")
  else if (Num.isNaN (parseInt port) || Num.lt (parseInt port) (Int 1)
           || Num.gt (parseInt port) (Int 65535))%bool then
    Returns (Minimal.text_response 400
      "Error: 'port' parameter must be a valid port number between 1 and 65535.")
  else
    match new_URL ("steam://connect/" ++ ip ++ ":" ++ port) with
    | Some t => Returns {| status := 302; headers := [("Location", href t)]; body := None |}
    | None => Returns (Minimal.text_response 500
                "Internal Server Error: An unexpected error occurred.")
    end.
Proof.
  intros Hu Hi Hp Ni Np. unfold Minimal.fetch, Minimal.Response_redirect.
  rewrite Hu, Hi, Hp. cbn [falsy].
  apply String.eqb_neq in Ni, Np. rewrite Ni, Np. cbn [orb].
  destruct (negb (Regex.test Minimal.ipPattern ip)); [reflexivity |].
  destruct (Num.isNaN (parseInt port) || Num.lt (parseInt port) (Int 1)
            || Num.gt (parseInt port) (Int 65535))%bool; [reflexivity |].
  destruct (new_URL ("steam://connect/" ++ ip ++ ":" ++ port)); reflexivity.
Qed.

(** With a parameter missing or empty the answer is the 400 of the presence
    check. *)
Lemma fetch_missing (request : Request) (u : URL) :
  new_URL (url request) = Some u ->
  (falsy (searchParams_get (searchParams u) "ip")
   || falsy (searchParams_get (searchParams u) "port"))%bool = true ->
  Minimal.fetch request =
  Returns (Minimal.text_response 400
    "Error: Missing one or more required parameters. 'ip' and 'port' are required.").
Proof.
  intros Hu F. unfold Minimal.fetch. rewrite Hu, F. reflexivity.
Qed.

Lemma falsy_false (v : option string) :
  falsy v = false -> exists s, v = Some s /\ s <> EmptyString.
Proof.
  destruct v as [s |]; cbn [falsy]; intros H; [| discriminate H].
  exists s. split; [reflexivity |]. apply String.eqb_neq, H.
Qed.

End Table.

Lemma length_append (s t : string) :
  String.length (s ++ t) = (String.length s + String.length t)%nat.
Proof.
  induction s as [| c s IH]; cbn [append String.length]; [reflexivity |].
  rewrite IH. reflexivity.
Qed.

Lemma append_nil_r (s : string) : (s ++ EmptyString)%string = s.
Proof.
  induction s as [| c s IH]; cbn [append]; [reflexivity | rewrite IH; reflexivity].
Qed.

Lemma forallb_append (p : ascii -> bool) (s t : string) :
  Str.forallb p (s ++ t) = (Str.forallb p s && Str.forallb p t)%bool.
Proof.
  induction s as [| c s IH]; cbn [append Str.forallb]; [reflexivity |].
  rewrite IH, andb_assoc. reflexivity.
Qed.

Lemma strip_zeros_digits (s : string) :
  Str.forallb is_digit s = true -> Str.forallb is_digit (strip_zeros s) = true.
Proof.
  induction s as [| c s IH]; [reflexivity |].
  cbn [Str.forallb]. intros H. pose proof H as H'.
  apply andb_true_iff in H as [Hc Hs].
  Digits.digit_cases c Hc; cbn [strip_zeros]; try exact H'.
  apply IH, Hs.
Qed.

Lemma canonical_decimal_digits (s : string) :
  Str.forallb is_digit s = true -> Str.forallb is_digit (canonical_decimal s) = true.
Proof.
  intros H. unfold canonical_decimal. pose proof (strip_zeros_digits s H) as D.
  destruct (strip_zeros s); [reflexivity | exact D].
Qed.

End MinimalFacts.

(* ================================================================== *)
(** * Further properties of the two handlers *)
(* ================================================================== *)

(** X1.  The address pattern of the minimal handler admits exactly the
    strings that split on the dot into four segments of one to three decimal
    digits with a value up to 255; leading zeros are admitted. *)
Theorem minimal_pattern_loose_quads (s : string) :
  Regex.test Minimal.ipPattern s = true <->
  exists a b c d,
    Str.split "." s = [a; b; c; d] /\
    Loose.Octet a /\ Loose.Octet b /\ Loose.Octet c /\ Loose.Octet d.
Proof.
  apply PatternFacts.test_ipPattern.
Qed.

(** X2.  The Address Validator of the hardened handler accepts exactly the
    addresses the pattern of the minimal handler accepts in which no segment
    has a leading zero, other than the segment [0] itself. *)
Theorem validator_is_pattern_without_leading_zeros (s : string) :
  Hardened.isValidIPv4 s = true <->
  Regex.test Minimal.ipPattern s = true /\
  forall seg, In seg (Str.split "." s) -> Str.startsWith seg "0" = true -> seg = "0".
Proof.
  rewrite AddressValidator.isValidIPv4_DottedQuad, PatternFacts.test_ipPattern.
  split.
  - intros (a & b & c & d & E & Ha & Hb & Hc & Hd).
    apply OctetFacts.Octet_Loose in Ha, Hb, Hc, Hd.
    destruct Ha as [La Za], Hb as [Lb Zb], Hc as [Lc Zc], Hd as [Ld Zd].
    split; [exists a, b, c, d; auto |].
    rewrite E. intros seg Hin. cbn [In] in Hin.
    destruct Hin as [H | [H | [H | [H | H]]]]; subst; try contradiction; assumption.
  - intros ((a & b & c & d & E & La & Lb & Lc & Ld) & Z).
    rewrite E in Z. exists a, b, c, d. split; [exact E |].
    repeat split; apply OctetFacts.Octet_Loose; (split; [assumption |]);
      apply Z; simpl; tauto.
Qed.

(** X3.  The minimal handler answers every request with status 302, 400 or
    500.  It redirects exactly when the URL is parsed, the address is four
    loose segments, the port leads (after white space and an optional plus
    sign) with an integer of [1, 65535], whatever follows it, and the target
    [steam://connect/ip:port], built from the port as given, is parsed; the
    Location is the serialization of that target.  It answers 500 exactly
    when one of the two URLs is not parsed. *)
Theorem minimal_handler_outcomes {platform : Platform} (request : Request) :
  exists r,
    Minimal.fetch request = Returns r /\
    (status r = 302 \/ status r = 400 \/ status r = 500) /\
    (status r = 302 <->
     exists u ip port n t,
       new_URL (url request) = Some u /\
       searchParams_get (searchParams u) "ip" = Some ip /\
       searchParams_get (searchParams u) "port" = Some port /\
       Loose.DottedQuad ip /\
       Loose.LeadingPort port n /\ 1 <= n <= 65535 /\
       new_URL ("steam://connect/" ++ ip ++ ":" ++ port) = Some t /\
       r = {| status := 302; headers := [("Location", href t)]; body := None |}) /\
    (status r = 500 <->
     new_URL (url request) = None \/
     exists u ip port n,
       new_URL (url request) = Some u /\
       searchParams_get (searchParams u) "ip" = Some ip /\
       searchParams_get (searchParams u) "port" = Some port /\
       Loose.DottedQuad ip /\
       Loose.LeadingPort port n /\ 1 <= n <= 65535 /\
       new_URL ("steam://connect/" ++ ip ++ ":" ++ port) = None).
Proof.
  destruct (new_URL (url request)) as [u |] eqn:Hu.
  2:{ rewrite (VariantFacts.minimal_url_fault request Hu).
      eexists. split; [reflexivity |]. cbn [status Minimal.text_response].
      split; [auto |]. split.
      - split; [discriminate |]. intros (? & ? & ? & ? & ? & X & _). discriminate X.
      - split; auto. }
  destruct (falsy (searchParams_get (searchParams u) "ip")
            || falsy (searchParams_get (searchParams u) "port"))%bool eqn:F.
  { rewrite (MinimalFacts.fetch_missing request u Hu F).
    eexists. split; [reflexivity |]. cbn [status Minimal.text_response].
    split; [auto |].
    assert (No : forall ip port n,
               searchParams_get (searchParams u) "ip" = Some ip ->
               searchParams_get (searchParams u) "port" = Some port ->
               Loose.DottedQuad ip -> Loose.LeadingPort port n -> False).
    { intros ip port n Hi Hp Q L. rewrite Hi, Hp in F. cbn [falsy] in F.
      apply orb_true_iff in F as [F | F]; apply String.eqb_eq in F; subst.
      - destruct Q as (a & b & c & d & E & _). discriminate E.
      - destruct L as (ws & sg & ds & rest & E & _ & _ & Hne & _).
        destruct ws; [| discriminate E]. destruct sg; [| discriminate E].
        destruct ds; [contradiction | discriminate E]. }
    split; split; try discriminate.
    - intros (u' & ip & port & n & t & X & Hi & Hp & Q & L & _).
      injection X as <-. exfalso. eapply No; eauto.
    - intros [X | (u' & ip & port & n & X & Hi & Hp & Q & L & _)]; [discriminate X |].
      injection X as <-. exfalso. eapply No; eauto. }
  apply orb_false_iff in F as [Fi Fp].
  destruct (MinimalFacts.falsy_false _ Fi) as (ip & Hi & Ni).
  destruct (MinimalFacts.falsy_false _ Fp) as (port & Hp & Np).
  rewrite (MinimalFacts.fetch_present request u ip port Hu Hi Hp Ni Np).
  destruct (Regex.test Minimal.ipPattern ip) eqn:T; cbn [negb].
  2:{ eexists. split; [reflexivity |]. cbn [status Minimal.text_response].
      split; [auto |].
      assert (No : Loose.DottedQuad ip -> False).
      { intros Q. apply PatternFacts.test_ipPattern in Q. congruence. }
      split; split; try discriminate.
      - intros (u' & ip' & port' & n & t & X & Hi' & _ & Q & _).
        injection X as <-. rewrite Hi in Hi'. injection Hi' as <-. contradiction.
      - intros [X | (u' & ip' & port' & n & X & Hi' & _ & Q & _)]; [discriminate X |].
        injection X as <-. rewrite Hi in Hi'. injection Hi' as <-. contradiction. }
  apply PatternFacts.test_ipPattern in T.
  destruct (Num.isNaN (parseInt port) || Num.lt (parseInt port) (Int 1)
            || Num.gt (parseInt port) (Int 65535))%bool eqn:P.
  { eexists. split; [reflexivity |]. cbn [status Minimal.text_response].
    split; [auto |].
    assert (No : forall n, Loose.LeadingPort port n -> 1 <= n <= 65535 -> False).
    { intros n L R.
      assert (X : exists m, Loose.LeadingPort port m /\ 1 <= m <= 65535) by eauto.
      apply ParseFacts.minimal_port_test in X. congruence. }
    split; split; try discriminate.
    - intros (u' & ip' & port' & n & t & X & _ & Hp' & _ & L & R & _).
      injection X as <-. rewrite Hp in Hp'. injection Hp' as <-. exfalso. eauto.
    - intros [X | (u' & ip' & port' & n & X & _ & Hp' & _ & L & R & _)]; [discriminate X |].
      injection X as <-. rewrite Hp in Hp'. injection Hp' as <-. exfalso. eauto. }
  apply ParseFacts.minimal_port_test in P. destruct P as (n & L & R).
  destruct (new_URL ("steam://connect/" ++ ip ++ ":" ++ port)) as [t |] eqn:Ht.
  - eexists. split; [reflexivity |]. cbn [status].
    split; [auto |]. split; split; try discriminate; try (intros _; reflexivity).
    + intros _. exists u, ip, port, n, t. repeat split; auto; lia.
    + intros [X | (u' & ip' & port' & n' & X & Hi' & Hp' & _ & _ & _ & Ht')];
        [discriminate X |].
      injection X as <-. rewrite Hi in Hi'. rewrite Hp in Hp'.
      injection Hi' as <-. injection Hp' as <-. congruence.
  - eexists. split; [reflexivity |]. cbn [status Minimal.text_response].
    split; [auto |]. split; split; try discriminate; try (intros _; reflexivity).
    + intros (u' & ip' & port' & n' & t & X & Hi' & Hp' & _ & _ & _ & Ht' & _).
      injection X as <-. rewrite Hi in Hi'. rewrite Hp in Hp'.
      injection Hi' as <-. injection Hp' as <-. congruence.
    + intros _. right. exists u, ip, port, n. repeat split; auto; lia.
Qed.

(** X4.  An address the Address Validator accepts is 7 to 15 characters
    long. *)
Theorem valid_address_length (s : string) :
  Hardened.isValidIPv4 s = true -> (7 <= String.length s <= 15)%nat.
Proof.
  intros V. apply AddressValidator.isValidIPv4_DottedQuad in V.
  destruct V as (a & b & c & d & E & Ha & Hb & Hc & Hd).
  apply OctetFacts.Octet_Loose in Ha, Hb, Hc, Hd.
  destruct Ha as [(_ & La & _) _], Hb as [(_ & Lb & _) _],
           Hc as [(_ & Lc & _) _], Hd as [(_ & Ld & _) _].
  rewrite <- (SplitFacts.join_split "." s), E.
  change (Str.join "." [a; b; c; d])
    with (a ++ String "." (b ++ String "." (c ++ String "." d)))%string.
  repeat (rewrite MinimalFacts.length_append; cbn [String.length]).
  lia.
Qed.

Lemma valid_address_length_witness : (7 <= String.length "51.68.200.55" <= 15)%nat.
Proof.
  exact (valid_address_length "51.68.200.55" eq_refl).
Defined.

(** X5.  On the addresses the Address Validator accepts, [ipv4ToInt] is
    injective: two valid addresses with the same integer are the same
    string. *)
Theorem ipv4ToInt_injective (s t : string) :
  Hardened.isValidIPv4 s = true ->
  Hardened.isValidIPv4 t = true ->
  Hardened.ipv4ToInt s = Hardened.ipv4ToInt t ->
  s = t.
Proof.
  apply CidrFacts.ipv4ToInt_inj.
Qed.

Lemma ipv4ToInt_injective_witness : "192.168.1.1" = "192.168.1.1".
Proof.
  exact (ipv4ToInt_injective "192.168.1.1" "192.168.1.1" eq_refl eq_refl eq_refl).
Defined.

(** X6.  On a valid address with octets a.b.c.d, [isPrivateOrReservedIP]
    answers true exactly when a is 0, 10 or 127, or a.b is 169.254, or a is
    172 and b is from 16 to 31, or a.b.c is 192.0.0, or a.b is 192.168, or
    the address is 255.255.255.255. *)
Theorem reserved_ranges_by_octet (s : string) :
  Hardened.isValidIPv4 s = true ->
  exists a b c d : Z,
    map decimal_value (Str.split "." s) = [a; b; c; d] /\
    (Hardened.isPrivateOrReservedIP s = true <->
     a = 0 \/ a = 10 \/ a = 127 \/
     (a = 169 /\ b = 254) \/
     (a = 172 /\ 16 <= b <= 31) \/
     (a = 192 /\ b = 0 /\ c = 0) \/
     (a = 192 /\ b = 168) \/
     (a = 255 /\ b = 255 /\ c = 255 /\ d = 255)).
Proof.
  intros V.
  destruct (CidrFacts.valid_address s V) as (a & b & c & d & E & Ha & Hb & Hc & Hd & I & R).
  exists (decimal_value a), (decimal_value b), (decimal_value c), (decimal_value d).
  split; [rewrite E; reflexivity |].
  rewrite (RangeClassifier.isPrivateOrReservedIP_reserved s _ I R).
  destruct Ha as (_ & _ & Va & _), Hb as (_ & _ & Vb & _),
           Hc as (_ & _ & Vc & _), Hd as (_ & _ & Vd & _).
  apply (MaskFacts.reserved_octets_iff _ _ _ _ Va Vb Vc Vd).
Qed.

Lemma reserved_ranges_by_octet_witness :
  Hardened.isPrivateOrReservedIP "172.32.0.1" = false.
Proof.
  destruct (reserved_ranges_by_octet "172.32.0.1" eq_refl) as (a & b & c & d & E & H).
  injection E as <- <- <- <-.
  destruct (Hardened.isPrivateOrReservedIP "172.32.0.1"); [| reflexivity].
  exfalso. destruct (proj1 H eq_refl) as [X | [X | [X | [X | [X | [X | [X | X]]]]]]];
    vm_compute in X; repeat match goal with H : _ /\ _ |- _ => destruct H end;
    first [discriminate | match goal with H : _ -> False |- _ => apply H; reflexivity end].
Defined.

(** X7.  For a block written as a valid address, a slash and a prefix
    length p from 0 to 32 in decimal digits, [ipInCidr] answers true on a
    valid address exactly when the address and the base agree on their top p
    bits.  With prefix 0 every address is in the block; with prefix 32 only
    the base itself. *)
Theorem ipInCidr_on_block_text (ip range prefix : string) :
  Hardened.isValidIPv4 ip = true ->
  Hardened.isValidIPv4 range = true ->
  prefix <> EmptyString ->
  Str.forallb is_digit prefix = true ->
  decimal_value prefix <= 32 ->
  exists x base p,
    Hardened.ipv4ToInt ip = Int x /\ 0 <= x < 2 ^ 32 /\
    Hardened.ipv4ToInt range = Int base /\ 0 <= base < 2 ^ 32 /\
    p = decimal_value prefix /\
    (Hardened.ipInCidr ip (range ++ "/" ++ prefix) = true <->
     x / 2 ^ (32 - p) = base / 2 ^ (32 - p)) /\
    (p = 0 -> Hardened.ipInCidr ip (range ++ "/" ++ prefix) = true) /\
    (p = 32 -> (Hardened.ipInCidr ip (range ++ "/" ++ prefix) = true <-> ip = range)).
Proof.
  intros Vi Vr Hne D Hp.
  destruct (CidrFacts.valid_address ip Vi) as (a & b & c & d & _ & _ & _ & _ & _ & Ix & Rx).
  destruct (CidrFacts.valid_address range Vr) as (a' & b' & c' & d' & _ & _ & _ & _ & _ & Ib & Rb).
  eexists _, _, (decimal_value prefix).
  split; [exact Ix |]. split; [exact Rx |]. split; [exact Ib |]. split; [exact Rb |].
  split; [reflexivity |].
  rewrite (CidrFacts.ipInCidr_text ip range prefix _ _ Vr Hne D Hp Ix Rx Ib Rb).
  rewrite Z.eqb_eq.
  split; [reflexivity |]. split.
  - intros ->. change (2 ^ (32 - 0)) with 4294967296.
    rewrite !Z.div_small by (change (2 ^ 32) with 4294967296 in *; lia). reflexivity.
  - intros ->. change (2 ^ (32 - 32)) with 1. rewrite !Z.div_1_r. split.
    + intros E. apply (CidrFacts.ipv4ToInt_inj ip range Vi Vr). rewrite Ix, Ib, E. reflexivity.
    + intros E. rewrite E, Ib in Ix. injection Ix as <-. reflexivity.
Qed.

Lemma ipInCidr_on_block_text_witness :
  Hardened.ipInCidr "172.31.255.254" "172.16.0.0/12" = true.
Proof.
  destruct (ipInCidr_on_block_text "172.31.255.254" "172.16.0.0" "12"
              eq_refl eq_refl ltac:(discriminate) eq_refl ltac:(vm_compute; discriminate))
    as (x & base & p & Ix & _ & Ib & _ & -> & H & _).
  apply (proj2 H). vm_compute in Ix. vm_compute in Ib.
  injection Ix as <-. injection Ib as <-. reflexivity.
Defined.

(** X8.  For a block written as a valid address with no slash, the prefix
    length is undefined and [ipInCidr] compares whole addresses: it answers
    true on a valid address exactly when the address is the block text. *)
Theorem ipInCidr_without_prefix (ip range : string) :
  Hardened.isValidIPv4 ip = true ->
  Hardened.isValidIPv4 range = true ->
  (Hardened.ipInCidr ip range = true <-> ip = range).
Proof.
  intros Vi Vr.
  destruct (CidrFacts.valid_address ip Vi) as (a & b & c & d & _ & _ & _ & _ & _ & Ix & Rx).
  destruct (CidrFacts.valid_address range Vr) as (a' & b' & c' & d' & _ & _ & _ & _ & _ & Ib & Rb).
  rewrite (CidrFacts.ipInCidr_no_slash ip range _ _
             (CidrFacts.valid_free_of_slash range Vr) Ix Rx Ib Rb).
  rewrite Z.eqb_eq. split.
  - intros E. apply (CidrFacts.ipv4ToInt_inj ip range Vi Vr). rewrite Ix, Ib, E. reflexivity.
  - intros E. rewrite E, Ib in Ix. injection Ix as <-. reflexivity.
Qed.

Lemma ipInCidr_without_prefix_witness :
  Hardened.ipInCidr "10.0.0.5" "10.0.0.5" = true.
Proof.
  exact (proj2 (ipInCidr_without_prefix "10.0.0.5" "10.0.0.5" eq_refl eq_refl) eq_refl).
Defined.

(** X9.  Whenever the hardened handler redirects, the address of the
    request is valid and outside the reserved ranges, the port is all digits
    with a value in [1, 65535], the body is null, and the Location is
    [steam://connect/] followed by the address as given, a colon and the
    port without leading zeros: a text in which every character is a decimal
    digit, a dot or a colon. *)
Theorem redirect_target_is_safe {platform : Platform} (request : Request) (r : Response) :
  Hardened.fetch request = Returns r ->
  status r = 301 ->
  exists u ip port target,
    new_URL (url request) = Some u /\
    searchParams_get (searchParams u) "ip" = Some ip /\
    searchParams_get (searchParams u) "port" = Some port /\
    Hardened.isValidIPv4 ip = true /\
    Hardened.isPrivateOrReservedIP ip = false /\
    Str.forallb is_digit port = true /\
    1 <= decimal_value port <= 65535 /\
    target = (ip ++ ":" ++ canonical_decimal port)%string /\
    header (headers r) "Location" = Some ("steam://connect/" ++ target) /\
    Str.forallb target_char target = true /\
    body r = None.
Proof.
  intros H S. unfold Hardened.fetch in H.
  destruct (new_URL (url request)) as [u |]; [| discriminate H].
  injection H as <-. rewrite HandlerFacts.respond_outcome in *.
  destruct (HandlerFacts.outcome_cases
              (searchParams_get (searchParams u) "ip")
              (searchParams_get (searchParams u) "port"))
    as [(k & _ & O) | (ip & port & Hi & Hp & F & O)].
  { rewrite O in S. discriminate S. }
  rewrite O. exists u, ip, port, (ip ++ ":" ++ canonical_decimal port)%string.
  rewrite Hi, Hp in F. unfold Spec.checks in F. cbn [Spec.first_failure] in F.
  destruct (falsy (Some ip) || falsy (Some port))%bool; [discriminate F |].
  destruct (Hardened.isValidIPv4 ip) eqn:V; cbn [negb] in F; [| discriminate F].
  destruct (Hardened.isPrivateOrReservedIP ip) eqn:P; [discriminate F |].
  destruct (String.eqb port EmptyString); cbn [negb andb] in F; [discriminate F |].
  destruct (Str.forallb is_digit port) eqn:D; cbn [negb] in F; [| discriminate F].
  destruct (Z.leb_spec 1 (decimal_value port)); cbn [andb negb] in F; [| discriminate F].
  destruct (Z.leb_spec (decimal_value port) 65535); cbn [negb] in F; [| discriminate F].
  repeat (split; [first [reflexivity | assumption | lia] |]).
  split; [| reflexivity].
  rewrite MinimalFacts.forallb_append. apply andb_true_iff. split.
  - apply AddressValidator.isValidIPv4_DottedQuad, OctetFacts.DottedQuad_chars in V.
    revert V. apply CidrFacts.forallb_weaken. intros c Hc. unfold target_char.
    rewrite Hc. reflexivity.
  - cbn [append Str.forallb]. apply andb_true_iff. split; [reflexivity |].
    generalize (MinimalFacts.canonical_decimal_digits port D).
    apply CidrFacts.forallb_weaken. intros c Hc. unfold target_char. rewrite Hc. reflexivity.
Qed.

Lemma redirect_target_is_safe_witness :
  exists target,
    header (("Location", "steam://connect/51.68.200.55:27015") :: Hardened.responseHeaders)
           "Location" = Some ("steam://connect/" ++ target) /\
    Str.forallb target_char target = true.
Proof.
  destruct (@redirect_target_is_safe Demo.platform
              (Demo.get "https://steam-connect.hexane.co/?ip=51.68.200.55&port=27015")
              {| status := 301;
                 headers := ("Location", "steam://connect/51.68.200.55:27015")
                              :: Hardened.responseHeaders;
                 body := None |}
              eq_refl eq_refl)
    as (u & ip & port & target & _ & _ & _ & _ & _ & _ & _ & _ & L & T & _).
  exists target. split; assumption.
Defined.

(** X10.  The minimal handler rejects nothing the hardened handler accepts:
    on a request the hardened handler redirects, the minimal handler passes
    its three checks and answers with the redirect to the target built from
    the same address and the port as given, or with 500 when that target is
    not parsed; it never answers 400. *)
Theorem hardened_accepts_minimal_accepts {platform : Platform}
    (request : Request) (r : Response) :
  Hardened.fetch request = Returns r ->
  status r = 301 ->
  exists u ip port,
    new_URL (url request) = Some u /\
    searchParams_get (searchParams u) "ip" = Some ip /\
    searchParams_get (searchParams u) "port" = Some port /\
    Minimal.fetch request =
    match new_URL ("steam://connect/" ++ ip ++ ":" ++ port) with
    | Some t => Returns {| status := 302; headers := [("Location", href t)]; body := None |}
    | None => Returns {| status := 500;
                         headers := [("Content-Type", "text/plain")];
                         body := Some "Internal Server Error: An unexpected error occurred." |}
    end.
Proof.
  intros H S. unfold Hardened.fetch in H.
  destruct (new_URL (url request)) as [u |] eqn:Hu; [| discriminate H].
  injection H as <-. rewrite HandlerFacts.respond_outcome in *.
  destruct (HandlerFacts.outcome_cases
              (searchParams_get (searchParams u) "ip")
              (searchParams_get (searchParams u) "port"))
    as [(k & _ & O) | (ip & port & Hi & Hp & F & O)].
  { rewrite O in S. discriminate S. }
  exists u, ip, port. repeat (split; [assumption || reflexivity |]).
  rewrite Hi, Hp in F. unfold Spec.checks in F. cbn [Spec.first_failure falsy] in F.
  destruct (String.eqb_spec ip EmptyString) as [| Ni]; [discriminate F |].
  destruct (String.eqb_spec port EmptyString) as [| Np]; [discriminate F |].
  cbn [orb negb andb] in F.
  destruct (Hardened.isValidIPv4 ip) eqn:V; cbn [negb] in F; [| discriminate F].
  destruct (Hardened.isPrivateOrReservedIP ip) eqn:P; [discriminate F |].
  destruct (Str.forallb is_digit port) eqn:D; cbn [negb] in F; [| discriminate F].
  destruct (Z.leb_spec 1 (decimal_value port)); cbn [andb negb] in F; [| discriminate F].
  destruct (Z.leb_spec (decimal_value port) 65535); cbn [negb] in F; [| discriminate F].
  rewrite (MinimalFacts.fetch_present request u ip port Hu Hi Hp Ni Np).
  assert (T : Regex.test Minimal.ipPattern ip = true).
  { apply PatternFacts.test_ipPattern.
    apply AddressValidator.isValidIPv4_DottedQuad in V.
    destruct V as (a & b & c & d & E & Ha & Hb & Hc & Hd).
    apply OctetFacts.Octet_Loose in Ha, Hb, Hc, Hd.
    exists a, b, c, d. tauto. }
  assert (Q : (Num.isNaN (parseInt port) || Num.lt (parseInt port) (Int 1)
               || Num.gt (parseInt port) (Int 65535))%bool = false).
  { apply ParseFacts.minimal_port_test. exists (decimal_value port). split; [| lia].
    exists EmptyString, EmptyString, port, EmptyString.
    cbn [append]. rewrite MinimalFacts.append_nil_r. repeat split; auto. }
  rewrite T, Q. reflexivity.
Qed.

Lemma hardened_accepts_minimal_accepts_witness :
  Minimal.fetch (platform := Demo.platform)
    (Demo.get "https://steam-connect.hexane.co/?ip=51.68.200.55&port=00027015") =
  Returns {| status := 302;
             headers := [("Location", "steam://connect/51.68.200.55:00027015")];
             body := None |}.
Proof.
  destruct (@hardened_accepts_minimal_accepts Demo.platform
              (Demo.get "https://steam-connect.hexane.co/?ip=51.68.200.55&port=00027015")
              {| status := 301;
                 headers := ("Location", "steam://connect/51.68.200.55:27015")
                              :: Hardened.responseHeaders;
                 body := None |}
              eq_refl eq_refl)
    as (u & ip & port & Hu & Hi & Hp & H).
  vm_compute in Hu. injection Hu as <-.
  vm_compute in Hi. injection Hi as <-.
  vm_compute in Hp. injection Hp as <-.
  exact H.
Defined.
